(** * ue4cli: UE4BuildInterrogator

    A shallow embedding of [ue4cli/UE4BuildInterrogator.py] and the
    properties of its documented behaviour.

    Conventions of the embedding.
    - A Python [str] is a [string]; a JSON field that is "a string or a
      sequence of strings" is a [Value].
    - A module of the UnrealBuildTool export is a Python [dict]; it is a
      mutable object, so module dictionaries live in a heap and lists of
      modules are lists of heap locations.
    - [os.path] is [posixpath] (the host is a POSIX system).
    - Methods that perform I/O thread a [World] and may raise. *)

From Stdlib Require Import String Ascii List Bool Arith Lia.
From stdpp Require Import base option list gmap strings pretty sorting.

Local Open Scope string_scope.
Local Open Scope list_scope.

(** ** Python string operations used by the interrogator *)

Module PyStr.

(** [s.startswith(p)] *)
Definition startswith (s p : string) : bool := String.prefix p s.

(** [s.endswith("/")]-style test on the last character. *)
Fixpoint endswith_char (s : string) (c : ascii) : bool :=
  match s with
  | EmptyString => false
  | String a EmptyString => Ascii.eqb a c
  | String _ s' => endswith_char s' c
  end.

(** [sub in s] (substring test). *)
Fixpoint contains (sub s : string) : bool :=
  String.prefix sub s ||
  match s with
  | EmptyString => false
  | String _ s' => contains sub s'
  end.

(** [s.replace(old, new)] for a non-empty [old]: occurrences are found
    scanning left to right and do not overlap; [skip] counts the
    characters of the current occurrence that remain to be dropped. *)
Fixpoint replace_from (old new : string) (skip : nat) (s : string) : string :=
  match s with
  | EmptyString => EmptyString
  | String c s' =>
      match skip with
      | S k => replace_from old new k s'
      | O =>
          if String.prefix old s
          then new +:+ replace_from old new (String.length old - 1) s'
          else String c (replace_from old new 0 s')
      end
  end.

Definition replace (s old new : string) : string := replace_from old new 0 s.

(** [sep.join(xs)] *)
Fixpoint join (sep : string) (xs : list string) : string :=
  match xs with
  | [] => ""
  | [x] => x
  | x :: rest => x +:+ sep +:+ join sep rest
  end.

(** Iterating over a [str] yields its characters as one-character strings. *)
Fixpoint chars (s : string) : list string :=
  match s with
  | EmptyString => []
  | String c s' => String c EmptyString :: chars s'
  end.

End PyStr.

(** ** [posixpath] *)

Module PosixPath.

Definition sep : string := "/".

(** [os.path.isabs(p)] *)
Definition isabs (p : string) : bool := PyStr.startswith p sep.

(** One step of the loop of [os.path.join]. *)
Definition join2 (path b : string) : string :=
  if PyStr.startswith b sep then b
  else if (String.eqb path "" || PyStr.endswith_char path "/"%char)%bool then path +:+ b
  else path +:+ sep +:+ b.

(** [os.path.join(a, *p)] *)
Definition join (a : string) (p : list string) : string :=
  fold_left join2 p a.

(** [p[:p.rfind('/') + 1]] *)
Fixpoint head_upto_last_sep (p : string) : string :=
  match p with
  | EmptyString => EmptyString
  | String c p' =>
      if PyStr.contains sep p' then String c (head_upto_last_sep p')
      else if Ascii.eqb c "/"%char then sep
      else EmptyString
  end.

Fixpoint all_sep (s : string) : bool :=
  match s with
  | EmptyString => true
  | String c s' => Ascii.eqb c "/"%char && all_sep s'
  end.

(** [s.rstrip('/')] *)
Fixpoint rstrip_sep (s : string) : string :=
  match s with
  | EmptyString => EmptyString
  | String c s' =>
      let r := rstrip_sep s' in
      if (Ascii.eqb c "/"%char && String.eqb r "")%bool then EmptyString
      else String c r
  end.

(** [os.path.dirname(p)] *)
Definition dirname (p : string) : string :=
  let head := head_upto_last_sep p in
  if (negb (String.eqb head "") && negb (all_sep head))%bool
  then rstrip_sep head
  else head.

End PosixPath.

(** ** Data model *)

(** A JSON field that holds either a single string or a list of strings. *)
Inductive Value : Type :=
| VStr (s : string)
| VList (l : list string).

(** [len(v)] *)
Definition py_len (v : Value) : nat :=
  match v with
  | VStr s => String.length s
  | VList l => length l
  end.

(** [for x in v]: a string iterates over its characters. *)
Definition py_iter (v : Value) : list string :=
  match v with
  | VStr s => PyStr.chars s
  | VList l => l
  end.

(** [[value] if isinstance(value, str) else value] *)
Definition as_list (v : Value) : list string :=
  match v with
  | VStr s => [s]
  | VList l => l
  end.

(** One module object of the JSON export (a Python [dict]). *)
Record Module : Type := mkModule {
  Name : string;
  Type_ : string;
  Directory : Value;
  PublicAdditionalLibraries : Value;
  PublicLibraryPaths : Value;
  PublicSystemIncludePaths : Value;
  PublicIncludePaths : Value;
  PrivateIncludePaths : Value;
  PublicDefinitions : Value
}.

(** [module['PublicAdditionalLibraries'] = libs] *)
Definition set_PublicAdditionalLibraries (m : Module) (libs : Value) : Module :=
  {| Name := Name m;
     Type_ := Type_ m;
     Directory := Directory m;
     PublicAdditionalLibraries := libs;
     PublicLibraryPaths := PublicLibraryPaths m;
     PublicSystemIncludePaths := PublicSystemIncludePaths m;
     PublicIncludePaths := PublicIncludePaths m;
     PrivateIncludePaths := PrivateIncludePaths m;
     PublicDefinitions := PublicDefinitions m |}.

(** The keys read by [interrogate], in the order of its [fields] list. *)
Inductive Field : Type :=
| FDirectory
| FPublicAdditionalLibraries
| FPublicLibraryPaths
| FPublicSystemIncludePaths
| FPublicIncludePaths
| FPrivateIncludePaths
| FPublicDefinitions.

#[global] Instance Field_eq_dec : EqDecision Field.
Proof. solve_decision. Defined.

Definition fieldName (f : Field) : string :=
  match f with
  | FDirectory => "Directory"
  | FPublicAdditionalLibraries => "PublicAdditionalLibraries"
  | FPublicLibraryPaths => "PublicLibraryPaths"
  | FPublicSystemIncludePaths => "PublicSystemIncludePaths"
  | FPublicIncludePaths => "PublicIncludePaths"
  | FPrivateIncludePaths => "PrivateIncludePaths"
  | FPublicDefinitions => "PublicDefinitions"
  end.

(** [item[field]] *)
Definition getField (f : Field) (m : Module) : Value :=
  match f with
  | FDirectory => Directory m
  | FPublicAdditionalLibraries => PublicAdditionalLibraries m
  | FPublicLibraryPaths => PublicLibraryPaths m
  | FPublicSystemIncludePaths => PublicSystemIncludePaths m
  | FPublicIncludePaths => PublicIncludePaths m
  | FPrivateIncludePaths => PrivateIncludePaths m
  | FPublicDefinitions => PublicDefinitions m
  end.

(** Modelled from the spec: [ThirdPartyLibraryDetails] (its module is not part
    of the sources at hand) is the result and override container with the
    five fields prefix dirs, include dirs, link dirs, definitions and libs;
    the default constructor leaves every field empty. *)
Record ThirdPartyLibraryDetails : Type := mkDetails {
  prefixDirs : list string;
  includeDirs : list string;
  linkDirs : list string;
  definitions : list string;
  libs : list string
}.

Definition emptyDetails : ThirdPartyLibraryDetails :=
  mkDetails [] [] [] [] [].

(** Modelled from the spec: [ThirdPartyLibraryDetails.merge]; "each field
    union-extends the corresponding result field". *)
Definition merge (self other : ThirdPartyLibraryDetails) : ThirdPartyLibraryDetails :=
  {| prefixDirs := prefixDirs self ++ prefixDirs other;
     includeDirs := includeDirs self ++ includeDirs other;
     linkDirs := linkDirs self ++ linkDirs other;
     definitions := definitions self ++ definitions other;
     libs := libs self ++ libs other |}.

(** ** Pure parts of [UE4BuildInterrogator] *)

Definition engineSourceDir : string := "Engine/Source/".

(** The body of the comprehensions of [_absolutePaths] for one path. *)
Definition slashes (p : string) : string := PyStr.replace p "\" "/".

Definition stripped (p : string) : string :=
  if PyStr.startswith p "../" then PyStr.replace p "../" "" else p.

Definition rebased (engineRoot p : string) : string :=
  if (PosixPath.isabs p || negb (PyStr.contains "/" p))%bool then p
  else PosixPath.join engineRoot [engineSourceDir; p].

(** [_absolutePaths(self, paths)] *)
Definition _absolutePaths (engineRoot : string) (paths : list string) : list string :=
  let slashes := map slashes paths in
  let stripped := map stripped slashes in
  map (rebased engineRoot) stripped.

(** [_flatten(self, field, items, transform)] *)
Definition _flatten (field : Field) (items : list Module)
    (transform : option (list string -> list string)) : list string :=
  let values := map (getField field) items in
  let flattened := concat (map as_list values) in
  match transform with
  | Some t => t flattened
  | None => flattened
  end.

(** ** The world of the effectful methods *)

(** Heap locations of module dictionaries. *)
Abbreviation loc := nat.

(** What [json.loads(Utility.readFile(jsonFile))] makes of the export file:
    either reading or parsing fails, or the values of the ["Modules"] object
    are obtained, in key order. *)
Inductive FileContent : Type :=
| Malformed
| Export (modules : list Module).

(** What one call of [runUBTFunc] does: it raises, or it returns after having
    written (or not) the file named by [-jsonexport=]. *)
Inductive UBTOutcome : Type :=
| UBTRaises
| UBTReturns (written : option FileContent).

Inductive Event : Type :=
| EvCacheGet (version key : string)
| EvCacheSet (version key : string) (value : list loc)
| EvMkdtemp (d : nat)
| EvRunUBT (target platformIdentifier configuration : string) (args : list string)
| EvRmtree (d : nat)
| EvStderr (msg : string).

(** - [heap]: the module dictionaries created by [json.loads];
    - [cache]: the store behind [CachedDataManager];
    - [tempDirs]: the temporary directories that exist, each with the content
      of its [ubt_output.json], if any;
    - [trace]: the calls made to the collaborators, oldest first;
    - [hostSystem]: [platform.system()];
    - [rmtreeFails]: whether [shutil.rmtree] raises on a directory. *)
Record World : Type := mkWorld {
  heap : gmap loc Module;
  cache : gmap (string * string) (list loc);
  tempDirs : gmap nat (option FileContent);
  trace : list Event;
  hostSystem : string;
  rmtreeFails : nat -> bool
}.

Definition set_heap (h : gmap loc Module) (w : World) : World :=
  mkWorld h (cache w) (tempDirs w) (trace w) (hostSystem w) (rmtreeFails w).
Definition set_cache (c : gmap (string * string) (list loc)) (w : World) : World :=
  mkWorld (heap w) c (tempDirs w) (trace w) (hostSystem w) (rmtreeFails w).
Definition set_tempDirs (t : gmap nat (option FileContent)) (w : World) : World :=
  mkWorld (heap w) (cache w) t (trace w) (hostSystem w) (rmtreeFails w).
Definition log (e : Event) (w : World) : World :=
  mkWorld (heap w) (cache w) (tempDirs w) (trace w ++ [e]) (hostSystem w) (rmtreeFails w).

Inductive Exn : Type :=
| ToolInvocationFailure
| ExportParseFailure
| RemovalFailure
| InvalidReference (l : loc).

Inductive Result (A : Type) : Type :=
| Ok (a : A)
| Raise (e : Exn).
Arguments Ok {A} a.
Arguments Raise {A} e.

(** A computation runs in a world and leaves a world, also when it raises. *)
Definition M (A : Type) : Type := World -> Result A * World.

Definition ret {A} (a : A) : M A := fun w => (Ok a, w).

Definition bind {A B} (c : M A) (k : A -> M B) : M B :=
  fun w =>
    match c w with
    | (Ok a, w') => k a w'
    | (Raise e, w') => (Raise e, w')
    end.

Notation "'let!' x ':=' c 'in' k" := (bind c (fun x => k))
  (at level 10, x name, c at level 100, k at level 200, only parsing).

Definition raise {A} (e : Exn) : M A := fun w => (Raise e, w).

(** [try: c  except: pass] *)
Definition try_except_pass (c : M unit) : M unit :=
  fun w =>
    match c w with
    | (Ok _, w') => (Ok tt, w')
    | (Raise _, w') => (Ok tt, w')
    end.

Fixpoint traverse {A B} (f : A -> M B) (xs : list A) : M (list B) :=
  match xs with
  | [] => ret []
  | x :: rest => let! y := f x in let! ys := traverse f rest in ret (y :: ys)
  end.

Definition emit (e : Event) : M unit := fun w => (Ok tt, log e w).

(** Reading and writing a module dictionary through a reference. *)
Definition deref (l : loc) : M Module :=
  fun w =>
    match heap w !! l with
    | Some m => (Ok m, w)
    | None => (Raise (InvalidReference l), w)
    end.

Definition assign (l : loc) (m : Module) : M unit :=
  fun w => (Ok tt, set_heap (<[l := m]> (heap w)) w).

(** A new dictionary object. *)
Definition alloc (m : Module) : M loc :=
  fun w =>
    let l := fresh (dom (heap w)) in
    (Ok l, set_heap (<[l := m]> (heap w)) w).

(** Modelled from the spec: [CachedDataManager] (not part of the sources at
    hand) is a key-value store with [getCachedDataKey(version, key)] returning
    the optional cached value and [setCachedDataKey(version, key, value)]; a
    present entry is returned unchanged. The spec does not say whether the
    store keeps the list it is given or a copy of it; the entry is kept here
    as it is given. *)
Definition getCachedDataKey (version key : string) : M (option (list loc)) :=
  fun w => (Ok (cache w !! (version, key)), log (EvCacheGet version key) w).

Definition setCachedDataKey (version key : string) (value : list loc) : M unit :=
  fun w =>
    (Ok tt, log (EvCacheSet version key value)
              (set_cache (<[(version, key) := value]> (cache w)) w)).

(** [tempfile.mkdtemp()] *)
Definition tempPath (d : nat) : string := "/tmp/tmp" +:+ pretty d.

Definition mkdtemp : M nat :=
  fun w =>
    let d := fresh (dom (tempDirs w)) in
    (Ok d, log (EvMkdtemp d) (set_tempDirs (<[d := None]> (tempDirs w)) w)).

(** [shutil.rmtree(tempDir)] *)
Definition rmtree (d : nat) : M unit :=
  fun w =>
    let w' := log (EvRmtree d) w in
    if rmtreeFails w d then (Raise RemovalFailure, w')
    else (Ok tt, set_tempDirs (delete d (tempDirs w')) w').

(** [platform.system()] *)
Definition platform_system : M string := fun w => (Ok (hostSystem w), w).

(** [Utility.printStderr(msg)] *)
Definition printStderr (msg : string) : M unit := emit (EvStderr msg).

(** [json.loads(Utility.readFile(jsonFile))] followed by the extraction of the
    values of [result['Modules']], for the export file of directory [d]. *)
Definition loadExport (d : nat) : M (list Module) :=
  fun w =>
    match tempDirs w !! d with
    | Some (Some (Export modules)) => (Ok modules, w)
    | _ => (Raise ExportParseFailure, w)
    end.

(** The objects [json.loads] creates for the modules. *)
Definition allocModule (m : Module) : M (loc * Module) :=
  let! l := alloc m in ret (l, m).

(** ** [UE4BuildInterrogator] *)

Record UE4BuildInterrogator : Type := mkInterrogator {
  engineRoot : string;
  engineVersionHash : string;
  runUBTFunc : string -> string -> string -> list string -> UBTOutcome
}.

(** [self.runUBTFunc(target, platformIdentifier, configuration, args)], the
    export file being the one of directory [d]. *)
Definition runUBT (self : UE4BuildInterrogator)
    (target platformIdentifier configuration : string) (args : list string)
    (d : nat) : M unit :=
  let! _ := emit (EvRunUBT target platformIdentifier configuration args) in
  match runUBTFunc self target platformIdentifier configuration args with
  | UBTRaises => raise ToolInvocationFailure
  | UBTReturns None => ret tt
  | UBTReturns (Some content) =>
      fun w => (Ok tt, set_tempDirs (<[d := Some content]> (tempDirs w)) w)
  end.

(** [_getThirdPartyLibs(self, platformIdentifier, configuration)] *)
Definition _getThirdPartyLibs (self : UE4BuildInterrogator)
    (platformIdentifier configuration : string) : M (list loc) :=
  let! cachedList := getCachedDataKey (engineVersionHash self) "ThirdPartyLibraries" in
  match cachedList with
  | Some l => ret l
  | None =>
      let! tempDir := mkdtemp in
      let jsonFile := PosixPath.join (tempPath tempDir) ["ubt_output.json"] in
      let! host := platform_system in
      let target := if String.eqb host "Linux" then "UE4Editor" else "UE4Game" in
      let! _ := runUBT self target platformIdentifier configuration
             ["-gather"; "-jsonexport=" +:+ jsonFile; "-SkipBuild"] tempDir in
      let! result := loadExport tempDir in
      let! modules := traverse allocModule result in
      let thirdparty :=
        map fst (filter (fun m => String.eqb (Type_ (snd m)) "EngineThirdParty") modules) in
      let! _ := try_except_pass (rmtree tempDir) in
      let! _ := setCachedDataKey (engineVersionHash self) "ThirdPartyLibraries" thirdparty in
      ret thirdparty
  end.

(** The test of the [if] in the loop over the selected modules. *)
Definition needsResolution (module : Module) : bool :=
  Nat.ltb 0 (py_len (PublicAdditionalLibraries module)) &&
  Nat.ltb 0 (py_len (PublicLibraryPaths module)).

(** One library reference, given the base directory [libPath]. *)
Definition resolveLibrary (libPath lib : string) : string :=
  if negb (PyStr.contains "/" lib) then PosixPath.join libPath [lib] else lib.

(** The list assigned to [module['PublicAdditionalLibraries']]. Under
    [needsResolution] the list of library paths is not empty, so that the
    index [0] is in range. *)
Definition resolvedLibraries (self : UE4BuildInterrogator) (module : Module) : list string :=
  let libPath := hd "" (_absolutePaths (engineRoot self) (py_iter (PublicLibraryPaths module))) in
  let libs := map slashes (py_iter (PublicAdditionalLibraries module)) in
  map (resolveLibrary libPath) libs.

(** The body of [for module in modules], on the dictionary at [l]. *)
Definition resolveModule (self : UE4BuildInterrogator) (l : loc) : M unit :=
  let! module := deref l in
  if needsResolution module
  then assign l (set_PublicAdditionalLibraries module (VList (resolvedLibraries self module)))
  else ret tt.

Definition fields : list Field :=
  [FDirectory; FPublicAdditionalLibraries; FPublicLibraryPaths;
   FPublicSystemIncludePaths; FPublicIncludePaths; FPrivateIncludePaths;
   FPublicDefinitions].

(** [(lambda l: self._absolutePaths(l)) if field != 'Definitions' else None] *)
Definition transformFor (self : UE4BuildInterrogator) (field : Field)
    : option (list string -> list string) :=
  if negb (String.eqb (fieldName field) "Definitions")
  then Some (_absolutePaths (engineRoot self))
  else None.

(** [flattened[field]] *)
Definition flattened (self : UE4BuildInterrogator) (modules : list Module)
    (field : Field) : list string :=
  _flatten field modules (transformFor self field).

(** [list(set(xs))]: the elements of [xs] without duplicates. Python leaves the
    order unspecified; the order chosen here is one of the possible ones. *)
Definition list_of_set (xs : list string) : list string := remove_dups xs.

(** The result composed from the selected modules, after the loop. *)
Definition moduleDetails (self : UE4BuildInterrogator) (modules : list Module)
    : ThirdPartyLibraryDetails :=
  let libraryDirectories := flattened self modules FPublicLibraryPaths in
  let headerDirectories :=
    flattened self modules FPublicSystemIncludePaths ++
    flattened self modules FPublicIncludePaths ++
    flattened self modules FPrivateIncludePaths in
  let modulePaths := flattened self modules FDirectory in
  let prefixDirectories :=
    list_of_set (flattened self modules FDirectory ++ headerDirectories ++
                 libraryDirectories ++
                 map PosixPath.dirname (headerDirectories ++ libraryDirectories)) in
  {| prefixDirs := prefixDirectories;
     includeDirs := headerDirectories;
     linkDirs := libraryDirectories;
     definitions := flattened self modules FPublicDefinitions;
     libs := flattened self modules FPublicAdditionalLibraries |}.

Definition dquote : string := String "034"%char EmptyString.

(** [[lib for lib in libraries if lib not in libOverrides]] *)
Definition libModulesOf (libraries : list string)
    (libOverrides : gmap string ThirdPartyLibraryDetails) : list string :=
  filter (fun lib => libOverrides !! lib = None) libraries.

(** [[libOverrides[lib] for lib in libraries if lib in libOverrides]] *)
Definition overridesToApply (libraries : list string)
    (libOverrides : gmap string ThirdPartyLibraryDetails) : list ThirdPartyLibraryDetails :=
  omap (fun lib => libOverrides !! lib) libraries.

(** [[m for m in modules if m['Name'] in libModules]], on references paired
    with the dictionaries they point to. *)
Definition selectModules (libModules : list string) (modules : list (loc * Module))
    : list (loc * Module) :=
  filter (fun m => Name (snd m) ∈ libModules) modules.

(** [['"' + m + '"' for m in libModules if m not in names]] *)
Definition unsupportedOf (libModules names : list string) : list string :=
  map (fun m => dquote +:+ m +:+ dquote) (filter (fun m => m ∉ names) libModules).

Definition derefPair (l : loc) : M (loc * Module) :=
  let! m := deref l in ret (l, m).

(** [interrogate(self, platformIdentifier, configuration, libraries, libOverrides)] *)
Definition interrogate (self : UE4BuildInterrogator)
    (platformIdentifier configuration : string) (libraries : list string)
    (libOverrides : gmap string ThirdPartyLibraryDetails) : M ThirdPartyLibraryDetails :=
  let libModules := libModulesOf libraries libOverrides in
  let! details :=
    if Nat.ltb 0 (length libModules) then
      let! modules := _getThirdPartyLibs self platformIdentifier configuration in
      let! modules := traverse derefPair modules in
      let modules := map fst (selectModules libModules modules) in
      let! names := traverse (fun l => let! m := deref l in ret (Name m)) modules in
      let unsupported := unsupportedOf libModules names in
      let! _ :=
        if Nat.ltb 0 (length unsupported)
        then printStderr ("Warning: unsupported libraries " +:+ PyStr.join "," unsupported)
        else ret tt in
      let! _ := traverse (resolveModule self) modules in
      let! items := traverse deref modules in
      ret (moduleDetails self items)
    else ret emptyDetails in
  ret (fold_left merge (overridesToApply libraries libOverrides) details).

(** [sorted(xs)] for strings: ascending in the order of [str], which compares
    the character codes lexicographically. *)
Definition sorted (xs : list string) : list string := merge_sort String.le xs.

(** [list(self, platformIdentifier, configuration)]; the name [list] is that
    of the type of lists here. *)
Definition list_ (self : UE4BuildInterrogator)
    (platformIdentifier configuration : string) : M (list string) :=
  let! modules := _getThirdPartyLibs self platformIdentifier configuration in
  let! names := traverse (fun m => let! d := deref m in ret (Name d)) modules in
  ret (sorted names).

(** ** What the loops of [interrogate] compute *)

(** The dictionary after one pass of the loop body. *)
Definition resolveValue (self : UE4BuildInterrogator) (module : Module) : Module :=
  if needsResolution module
  then set_PublicAdditionalLibraries module (VList (resolvedLibraries self module))
  else module.

(** The heap after the loop over the references [ls]. *)
Definition resolveHeap (self : UE4BuildInterrogator) (ls : list loc)
    (h : gmap loc Module) : gmap loc Module :=
  fold_left (fun h l => alter (resolveValue self) l h) ls h.

(** The dictionaries the references [ls] point to. *)
Definition heapModules (h : gmap loc Module) (ls : list loc) : list Module :=
  omap (fun l => h !! l) ls.

Definition heapPairs (h : gmap loc Module) (ls : list loc) : list (loc * Module) :=
  omap (fun l => pair l <$> h !! l) ls.

Definition allocated (h : gmap loc Module) (l : loc) : Prop := is_Some (h !! l).

#[global] Instance allocated_dec h l : Decision (allocated h l).
Proof. unfold allocated. apply _. Defined.

(** The references of the requested modules among [locs]. *)
Definition selectedLocs (libModules : list string) (h : gmap loc Module)
    (locs : list loc) : list loc :=
  map fst (selectModules libModules (heapPairs h locs)).

Definition warning (unsupported : list string) : string :=
  "Warning: unsupported libraries " +:+ PyStr.join "," unsupported.

(** The world after the warning, if any. *)
Definition warned (libModules names : list string) (w : World) : World :=
  if Nat.ltb 0 (length (unsupportedOf libModules names))
  then log (EvStderr (warning (unsupportedOf libModules names))) w
  else w.

(** What [interrogate] does once the module source has returned [locs] in the
    world [w]. *)
Definition interrogateFrom (self : UE4BuildInterrogator) (libraries : list string)
    (libOverrides : gmap string ThirdPartyLibraryDetails) (locs : list loc)
    (w : World) : Result ThirdPartyLibraryDetails * World :=
  let libModules := libModulesOf libraries libOverrides in
  let sel := selectedLocs libModules (heap w) locs in
  let names := map Name (heapModules (heap w) sel) in
  let w' := warned libModules names w in
  let h := resolveHeap self sel (heap w') in
  (Ok (fold_left merge (overridesToApply libraries libOverrides)
         (moduleDetails self (heapModules h sel))),
   set_heap h w').

(** ** What the module source computes *)

Definition cacheKey (self : UE4BuildInterrogator) : string * string :=
  (engineVersionHash self, "ThirdPartyLibraries").

Definition ubtTarget (w : World) : string :=
  if String.eqb (hostSystem w) "Linux" then "UE4Editor" else "UE4Game".

Definition ubtArgs (d : nat) : list string :=
  ["-gather";
   "-jsonexport=" +:+ PosixPath.join (tempPath d) ["ubt_output.json"];
   "-SkipBuild"].

(** What the tool does when the module source runs it in the world [w], the
    temporary directory being [d]. *)
Definition ubtOutcome (self : UE4BuildInterrogator)
    (platformIdentifier configuration : string) (w : World) (d : nat) : UBTOutcome :=
  runUBTFunc self (ubtTarget w) platformIdentifier configuration (ubtArgs d).

(** The dictionaries of a parsed export, allocated one after the other. *)
Fixpoint allocAll (ms : list Module) (h : gmap loc Module)
    : list (loc * Module) * gmap loc Module :=
  match ms with
  | [] => ([], h)
  | m :: rest =>
      let l := fresh (dom h) in
      let r := allocAll rest (<[l := m]> h) in
      ((l, m) :: fst r, snd r)
  end.

Definition thirdPartyOf (modules : list (loc * Module)) : list loc :=
  map fst (filter (fun m => String.eqb (Type_ (snd m)) "EngineThirdParty") modules).

(** The world in which the tool has been started on a cache miss. *)
Definition toolStarted (self : UE4BuildInterrogator)
    (platformIdentifier configuration : string) (w : World) : World :=
  let d := fresh (dom (tempDirs w)) in
  log (EvRunUBT (ubtTarget w) platformIdentifier configuration (ubtArgs d))
    (log (EvMkdtemp d)
       (set_tempDirs (<[d := None]> (tempDirs w))
          (log (EvCacheGet (engineVersionHash self) "ThirdPartyLibraries") w))).

(** The world after the attempt to remove the directory [d]. *)
Definition removalAttempted (d : nat) (w : World) : World :=
  let w' := log (EvRmtree d) w in
  if rmtreeFails w d then w' else set_tempDirs (delete d (tempDirs w')) w'.

(** The module source on a cache miss, by what the tool does. *)
Definition moduleSourceMiss (self : UE4BuildInterrogator)
    (platformIdentifier configuration : string) (w : World)
    : Result (list loc) * World :=
  let d := fresh (dom (tempDirs w)) in
  let w3 := toolStarted self platformIdentifier configuration w in
  match ubtOutcome self platformIdentifier configuration w d with
  | UBTRaises => (Raise ToolInvocationFailure, w3)
  | UBTReturns None => (Raise ExportParseFailure, w3)
  | UBTReturns (Some Malformed) =>
      (Raise ExportParseFailure, set_tempDirs (<[d := Some Malformed]> (tempDirs w3)) w3)
  | UBTReturns (Some (Export ms)) =>
      let w4 := set_tempDirs (<[d := Some (Export ms)]> (tempDirs w3)) w3 in
      let r := allocAll ms (heap w4) in
      let w5 := removalAttempted d (set_heap (snd r) w4) in
      let thirdparty := thirdPartyOf (fst r) in
      (Ok thirdparty,
       log (EvCacheSet (engineVersionHash self) "ThirdPartyLibraries" thirdparty)
         (set_cache (<[cacheKey self := thirdparty]> (cache w5)) w5))
  end.

(** ** Observations on a trace *)

(** The messages written to the error stream. *)
Definition diagnostics (t : list Event) : list string :=
  omap (fun e => match e with EvStderr msg => Some msg | _ => None end) t.

Definition isRunUBT (e : Event) : bool :=
  match e with EvRunUBT _ _ _ _ => true | _ => false end.

Definition isCacheGet (e : Event) : bool :=
  match e with EvCacheGet _ _ => true | _ => false end.

Definition isRmtree (d : nat) (e : Event) : bool :=
  match e with EvRmtree d' => Nat.eqb d' d | _ => false end.

(** The invocations of the tool. *)
Definition toolInvocations (t : list Event) : list Event :=
  filter (fun e => isRunUBT e) t.

(** The look-ups of the module source in the cache. *)
Definition retrievals (t : list Event) : list Event :=
  filter (fun e => isCacheGet e) t.

(** The attempts to remove the directory [d]. *)
Definition removalsOf (d : nat) (t : list Event) : list Event :=
  filter (fun e => isRmtree d e) t.

(** ** Path absolutization in other words

    Two descriptions of what path absolutization does to one path, written
    without [str.replace] and [os.path.join], to compare [_absolutePaths]
    with. *)

(** Every backslash becomes a forward slash. *)
Fixpoint canonicalSeparators (p : string) : string :=
  match p with
  | EmptyString => EmptyString
  | String c p' =>
      String (if Ascii.eqb c "\"%char then "/"%char else c) (canonicalSeparators p')
  end.

(** Exactly the leading ["../"] goes, if there is one. *)
Definition dropLeadingMarker (p : string) : string :=
  match p with
  | String a (String b (String c rest)) =>
      if (Ascii.eqb a "."%char && Ascii.eqb b "."%char && Ascii.eqb c "/"%char)%bool
      then rest else p
  | _ => p
  end.

(** Every ["../"] met when reading the path from left to right goes, if the
    path starts with one. *)
Fixpoint dropEveryMarker (p : string) : string :=
  match p with
  | EmptyString => EmptyString
  | String a t =>
      match t with
      | String b (String c rest) =>
          if (Ascii.eqb a "."%char && Ascii.eqb b "."%char && Ascii.eqb c "/"%char)%bool
          then dropEveryMarker rest
          else String a (dropEveryMarker t)
      | _ => String a (dropEveryMarker t)
      end
  end.

Definition startsWithMarker (p : string) : bool :=
  match p with
  | String a (String b (String c _)) =>
      (Ascii.eqb a "."%char && Ascii.eqb b "."%char && Ascii.eqb c "/"%char)%bool
  | _ => false
  end.

Definition startsWithSlash (p : string) : bool :=
  match p with
  | String a _ => Ascii.eqb a "/"%char
  | EmptyString => false
  end.

Fixpoint hasSlash (p : string) : bool :=
  match p with
  | EmptyString => false
  | String a p' => (Ascii.eqb a "/"%char || hasSlash p')%bool
  end.

(** The engine root joined with the engine source directory. *)
Definition engineSourceRoot (engineRoot : string) : string :=
  engineRoot +:+
  (if (String.eqb engineRoot "" || PyStr.endswith_char engineRoot "/"%char)%bool
   then "" else "/") +:+
  "Engine/Source/".

Definition rebaseOnEngine (engineRoot p : string) : string :=
  if (startsWithSlash p || negb (hasSlash p))%bool then p
  else engineSourceRoot engineRoot +:+ p.

(** Path absolutization with only the leading marker stripped. *)
Definition absolutizeLeadingOnly (engineRoot p : string) : string :=
  rebaseOnEngine engineRoot (dropLeadingMarker (canonicalSeparators p)).

(** Path absolutization with every marker stripped from a path that starts
    with one. *)
Definition absolutizeEveryMarker (engineRoot p : string) : string :=
  let s := canonicalSeparators p in
  rebaseOnEngine engineRoot (if startsWithMarker s then dropEveryMarker s else s).

(** ** Bare-filename resolution in other words *)

(** A name joined onto a directory. *)
Definition joinOnto (base name : string) : string :=
  base +:+
  (if (String.eqb base "" || PyStr.endswith_char base "/"%char)%bool then "" else "/") +:+
  name.

(** One library reference: the separators are canonicalized, and a reference
    without a separator is joined onto the base directory. *)
Definition resolveReference (base lib : string) : string :=
  let ref := canonicalSeparators lib in
  if hasSlash ref then ref else joinOnto base ref.

(** The base directory of a module: its first library path, absolutized. *)
Definition libraryBase (self : UE4BuildInterrogator) (module : Module) : string :=
  hd "" (_absolutePaths (engineRoot self) (py_iter (PublicLibraryPaths module))).

(** A reference on which bare-filename resolution has nothing left to do,
    up to the separators. *)
Definition stableRef (base x : string) : Prop :=
  hasSlash (canonicalSeparators x) = true \/ (base = "" /\ canonicalSeparators x = x).

(** A module on which the loop body has run, or one it skips. *)
Definition settled (self : UE4BuildInterrogator) (m : Module) : Prop :=
  needsResolution m = false \/
  exists refs, PublicAdditionalLibraries m = VList refs /\
               Forall (stableRef (libraryBase self m)) refs.

(** Two modules that contribute the same to every flattened field. *)
Definition sameFlags (self : UE4BuildInterrogator) (m m' : Module) : Prop :=
  Name m' = Name m /\
  (forall field, field <> FPublicAdditionalLibraries ->
                 getField field m' = getField field m) /\
  _absolutePaths (engineRoot self) (as_list (PublicAdditionalLibraries m'))
  = _absolutePaths (engineRoot self) (as_list (PublicAdditionalLibraries m)).

(** Equality of two lists as sets. *)
Definition sameSet (xs ys : list string) : Prop := forall x, x ∈ xs <-> x ∈ ys.

(** Equality of two results, each field taken as a set. *)
Definition sameDetails (r r' : ThirdPartyLibraryDetails) : Prop :=
  sameSet (prefixDirs r) (prefixDirs r') /\
  sameSet (includeDirs r) (includeDirs r') /\
  sameSet (linkDirs r) (linkDirs r') /\
  sameSet (definitions r) (definitions r') /\
  sameSet (libs r) (libs r').

(** ** Shapes of paths *)

Fixpoint hasBackslash (p : string) : bool :=
  match p with
  | EmptyString => false
  | String a p' => (Ascii.eqb a "\"%char || hasBackslash p')%bool
  end.

(** A path that is absolute or has no directory part. *)
Definition absoluteOrBare (p : string) : Prop :=
  startsWithSlash p = true \/ hasSlash p = false.

(** ** A concrete engine

    An export with one third-party module and one engine module, used to run
    the methods on. *)

Definition zlibModule : Module :=
  {| Name := "zlib";
     Type_ := "EngineThirdParty";
     Directory := VStr "ThirdParty/zlib";
     PublicAdditionalLibraries := VList ["foo.lib"; "sub/foo.lib"];
     PublicLibraryPaths := VList ["/eng/Lib"];
     PublicSystemIncludePaths := VList [];
     PublicIncludePaths := VList ["../ThirdParty/zlib/include"];
     PrivateIncludePaths := VList [];
     PublicDefinitions := VList ["WITH_ZLIB=1"; "ZLIB_HEADER=zlib/zlib.h"] |}.

Definition pngModule : Module :=
  {| Name := "libPNG";
     Type_ := "EngineThirdParty";
     Directory := VStr "ThirdParty/libPNG";
     PublicAdditionalLibraries := VList [];
     PublicLibraryPaths := VList ["ThirdParty/libPNG/lib"];
     PublicSystemIncludePaths := VList ["ThirdParty/libPNG/include"];
     PublicIncludePaths := VList [];
     PrivateIncludePaths := VList [];
     PublicDefinitions := VList [] |}.

Definition coreModule : Module :=
  {| Name := "Core";
     Type_ := "EngineRuntime";
     Directory := VStr "Runtime/Core";
     PublicAdditionalLibraries := VList [];
     PublicLibraryPaths := VList [];
     PublicSystemIncludePaths := VList [];
     PublicIncludePaths := VList [];
     PrivateIncludePaths := VList [];
     PublicDefinitions := VList [] |}.

(** An interrogator whose tool writes the export of the three modules. *)
Definition sampleInterrogator : UE4BuildInterrogator :=
  {| engineRoot := "/opt/UE";
     engineVersionHash := "4.27.2";
     runUBTFunc := fun _ _ _ _ =>
       UBTReturns (Some (Export [coreModule; zlibModule; pngModule])) |}.

(** An interrogator whose tool writes something that is not an export. *)
Definition brokenInterrogator : UE4BuildInterrogator :=
  {| engineRoot := "/opt/UE";
     engineVersionHash := "4.27.2";
     runUBTFunc := fun _ _ _ _ => UBTReturns (Some Malformed) |}.

(** A world with nothing cached, no temporary directory, and a working
    [shutil.rmtree]. *)
Definition freshWorld : World :=
  {| heap := ∅; cache := ∅; tempDirs := ∅; trace := [];
     hostSystem := "Linux"; rmtreeFails := fun _ => false |}.

(** The value a computation has returned, or [d] when it has raised. *)
Definition valueOr {A} (d : A) (x : Result A * World) : A :=
  match fst x with
  | Ok a => a
  | Raise _ => d
  end.

Definition zlibOverride : ThirdPartyLibraryDetails :=
  {| prefixDirs := ["/usr"];
     includeDirs := ["/usr/include"];
     linkDirs := ["/usr/lib"];
     definitions := [];
     libs := ["z"] |}.

(** * Properties *)

(** ** Strings and paths *)
Lemma append_cons a (s t : string) : String a s +:+ t = String a (s +:+ t).
Proof. reflexivity. Qed.

Lemma append_nil_l (t : string) : "" +:+ t = t.
Proof. reflexivity. Qed.

Lemma app_assoc_str (a b c : string) : (a +:+ b) +:+ c = a +:+ b +:+ c.
Proof.
  induction a as [|x a IH]; [reflexivity|].
  rewrite !append_cons. now rewrite IH.
Qed.

Lemma prefix_cons a s1 b s2 :
  String.prefix (String a s1) (String b s2) = (Ascii.eqb a b && String.prefix s1 s2)%bool.
Proof.
  change (String.prefix (String a s1) (String b s2))
    with (if ascii_dec a b then String.prefix s1 s2 else false).
  destruct (ascii_dec a b) as [->|Hne].
  - now rewrite Ascii.eqb_refl.
  - apply Ascii.eqb_neq in Hne. now rewrite Hne.
Qed.

Lemma prefix_empty s : String.prefix "" s = true.
Proof. now destruct s. Qed.

Lemma prefix_slash p : String.prefix "/" p = startsWithSlash p.
Proof.
  destruct p as [|a p]; [reflexivity|].
  rewrite prefix_cons, prefix_empty, andb_true_r. apply Ascii.eqb_sym.
Qed.

Lemma prefix_marker p : String.prefix "../" p = startsWithMarker p.
Proof.
  destruct p as [|a [|b [|c p]]]; try reflexivity;
    rewrite ?prefix_cons, ?prefix_empty, ?andb_true_r; cbn [startsWithMarker];
    rewrite ?(Ascii.eqb_sym a), ?(Ascii.eqb_sym b), ?(Ascii.eqb_sym c), ?andb_assoc;
    try reflexivity.
  - change (String.prefix "./" "") with false. apply andb_false_r.
  - change (String.prefix "/" "") with false. now rewrite !andb_false_r.
Qed.

Lemma contains_slash p : PyStr.contains "/" p = hasSlash p.
Proof.
  induction p as [|a p IH]; [reflexivity|].
  cbn [PyStr.contains hasSlash]. rewrite IH, prefix_slash. reflexivity.
Qed.

Lemma slashes_canonical p : slashes p = canonicalSeparators p.
Proof.
  unfold slashes, PyStr.replace.
  induction p as [|a p IH]; [reflexivity|].
  cbn [PyStr.replace_from canonicalSeparators].
  rewrite prefix_cons, prefix_empty, andb_true_r, (Ascii.eqb_sym _ a).
  destruct (Ascii.eqb a "\"); cbn; now rewrite IH.
Qed.

Lemma replace_marker_skip2 a b p :
  PyStr.replace_from "../" "" 2 (String a (String b p)) = PyStr.replace_from "../" "" 0 p.
Proof. reflexivity. Qed.

Lemma replace_marker_spec n : forall p,
  String.length p <= n -> PyStr.replace p "../" "" = dropEveryMarker p.
Proof.
  unfold PyStr.replace.
  induction n as [|n IH]; intros p Hn.
  - destruct p; [reflexivity | cbn in Hn; lia].
  - destruct p as [|a t]; [reflexivity|].
    cbn [PyStr.replace_from]. rewrite prefix_marker.
    destruct t as [|b [|c rest]].
    + reflexivity.
    + cbn [startsWithMarker PyStr.replace_from dropEveryMarker].
      now rewrite prefix_marker.
    + cbn [startsWithMarker dropEveryMarker String.length Nat.sub].
      cbn in Hn.
      destruct (Ascii.eqb a "." && Ascii.eqb b "." && Ascii.eqb c "/")%bool.
      * rewrite replace_marker_skip2. cbn [String.append]. apply IH. lia.
      * f_equal. apply IH. cbn. lia.
Qed.

Lemma stripped_spec p :
  stripped p = if startsWithMarker p then dropEveryMarker p else p.
Proof.
  unfold stripped, PyStr.startswith. rewrite prefix_marker.
  destruct (startsWithMarker p); [|reflexivity].
  now apply (replace_marker_spec (String.length p)).
Qed.

Lemma endswith_char_app s c : PyStr.endswith_char (s +:+ String c "") c = true.
Proof.
  induction s as [|a s IH].
  - cbn. apply Ascii.eqb_refl.
  - change (String a s +:+ String c "") with (String a (s +:+ String c "")).
    cbn [PyStr.endswith_char].
    destruct (s +:+ String c "") eqn:E; [destruct s; discriminate|]. exact IH.
Qed.

Lemma engineSourceRoot_join root :
  PosixPath.join root [engineSourceDir] = engineSourceRoot root.
Proof.
  unfold PosixPath.join, engineSourceRoot, PosixPath.join2. cbn [fold_left].
  change (PyStr.startswith engineSourceDir PosixPath.sep) with false. cbv iota.
  destruct (String.eqb root "" || PyStr.endswith_char root "/")%bool; reflexivity.
Qed.


Lemma engineSourceRoot_ends root :
  PyStr.endswith_char (engineSourceRoot root) "/" = true /\ engineSourceRoot root <> "".
Proof.
  unfold engineSourceRoot.
  change "Engine/Source/" with ("Engine/Source" +:+ String "/" "").
  rewrite <- !app_assoc_str. split; [apply endswith_char_app|].
  destruct ((root +:+ _) +:+ "Engine/Source"); discriminate.
Qed.

Lemma rebased_spec root p : rebased root p = rebaseOnEngine root p.
Proof.
  unfold rebased, rebaseOnEngine, PosixPath.isabs, PyStr.startswith, PosixPath.sep.
  rewrite prefix_slash, contains_slash.
  destruct (startsWithSlash p) eqn:Habs; [reflexivity|].
  destruct (hasSlash p); [|reflexivity]. cbn [orb negb].
  change (PosixPath.join root [engineSourceDir; p])
    with (PosixPath.join2 (PosixPath.join root [engineSourceDir]) p).
  rewrite engineSourceRoot_join. unfold PosixPath.join2, PyStr.startswith, PosixPath.sep.
  rewrite prefix_slash, Habs.
  destruct (engineSourceRoot_ends root) as [-> _]. now rewrite orb_true_r.
Qed.

Lemma absolutePaths_pointwise root paths :
  _absolutePaths root paths = map (absolutizeEveryMarker root) paths.
Proof.
  unfold _absolutePaths. rewrite !map_map. apply map_ext. intros p.
  unfold absolutizeEveryMarker. now rewrite rebased_spec, stripped_spec, slashes_canonical.
Qed.

(** C2 (as amended). For every path handed to path absolutization: the
    backslashes become forward slashes; then, if the path starts with ["../"],
    every ["../"] met from left to right is removed, not only the leading
    one; the result is left unchanged when it is absolute or has no separator
    and is otherwise prefixed with the engine root joined with
    ["Engine/Source/"]. *)
Theorem absolutePaths_every_marker root paths :
  _absolutePaths root paths = map (absolutizeEveryMarker root) paths.
Proof.
  unfold _absolutePaths. rewrite !map_map. apply map_ext. intros p.
  unfold absolutizeEveryMarker. now rewrite rebased_spec, stripped_spec, slashes_canonical.
Qed.

(** C2, as first stated, fails: a ["../"] inside the path is removed as well. *)
Lemma absolutePaths_inner_marker :
  _absolutePaths "/opt/UE" ["../a/../b"] = ["/opt/UE/Engine/Source/a/b"] /\
  map (absolutizeLeadingOnly "/opt/UE") ["../a/../b"] = ["/opt/UE/Engine/Source/a/../b"] /\
  _absolutePaths "/opt/UE" ["../a/../b"] <> map (absolutizeLeadingOnly "/opt/UE") ["../a/../b"].
Proof. split; [reflexivity|split; [reflexivity|discriminate]]. Qed.

(** ** The loops *)

Lemma set_heap_same w : set_heap (heap w) w = w.
Proof. now destruct w. Qed.

Lemma heapModules_cons h l ls m :
  h !! l = Some m -> heapModules h (l :: ls) = m :: heapModules h ls.
Proof. intros E. unfold heapModules. cbn. now rewrite E. Qed.

Lemma heapPairs_cons h l ls m :
  h !! l = Some m -> heapPairs h (l :: ls) = (l, m) :: heapPairs h ls.
Proof. intros E. unfold heapPairs. cbn. now rewrite E. Qed.

Lemma traverse_deref ls w :
  Forall (allocated (heap w)) ls ->
  traverse deref ls w = (Ok (heapModules (heap w) ls), w).
Proof.
  induction 1 as [|l ls [m E] _ IH]; [reflexivity|].
  cbn [traverse]. unfold bind at 1. unfold deref at 1. rewrite E.
  unfold bind at 1. rewrite IH. unfold ret. now rewrite (heapModules_cons _ _ _ _ E).
Qed.

Lemma traverse_derefPair ls w :
  Forall (allocated (heap w)) ls ->
  traverse derefPair ls w = (Ok (heapPairs (heap w) ls), w).
Proof.
  induction 1 as [|l ls [m E] _ IH]; [reflexivity|].
  cbn [traverse]. unfold bind at 1. unfold derefPair at 1, bind at 1, deref at 1.
  rewrite E. unfold ret at 1. unfold bind at 1. rewrite IH. unfold ret.
  now rewrite (heapPairs_cons _ _ _ _ E).
Qed.

Lemma traverse_derefPair_raises ls w :
  ~ Forall (allocated (heap w)) ls ->
  exists e, traverse derefPair ls w = (Raise e, w).
Proof.
  induction ls as [|l ls IH]; intros Hn; [destruct Hn; constructor|].
  cbn [traverse]. unfold bind at 1. unfold derefPair at 1, bind at 1, deref at 1.
  destruct (heap w !! l) as [m|] eqn:E; [|eauto].
  unfold ret at 1. unfold bind at 1.
  destruct IH as [e ->]; [|eauto].
  intros HF. apply Hn. constructor; [now exists m | exact HF].
Qed.

Lemma traverse_names ls w :
  Forall (allocated (heap w)) ls ->
  traverse (fun l => let! m := deref l in ret (Name m)) ls w
  = (Ok (map Name (heapModules (heap w) ls)), w).
Proof.
  induction 1 as [|l ls [m E] _ IH]; [reflexivity|].
  cbn [traverse]. unfold bind at 1. unfold bind at 1, deref at 1.
  rewrite E. unfold ret at 1. unfold bind at 1. rewrite IH. unfold ret.
  now rewrite (heapModules_cons _ _ _ _ E).
Qed.

Lemma resolveModule_run self l w :
  allocated (heap w) l ->
  resolveModule self l w = (Ok tt, set_heap (alter (resolveValue self) l (heap w)) w).
Proof.
  intros [m E]. unfold resolveModule, bind, deref. rewrite E.
  assert (Halter : alter (resolveValue self) l (heap w) = <[l := resolveValue self m]> (heap w)).
  { apply map_eq. intros i. rewrite lookup_alter, lookup_insert.
    destruct (decide (l = i)) as [->|]; [now rewrite E|reflexivity]. }
  rewrite Halter. unfold resolveValue.
  destruct (needsResolution m); [reflexivity|].
  unfold ret. now rewrite (insert_id _ _ _ E), set_heap_same.
Qed.

Lemma allocated_alter f h l i :
  allocated (alter f l h) i <-> allocated h i.
Proof.
  unfold allocated. rewrite lookup_alter.
  destruct (decide (l = i)) as [->|]; [|reflexivity].
  now rewrite fmap_is_Some.
Qed.

Lemma allocated_resolveHeap self ls h i :
  allocated (resolveHeap self ls h) i <-> allocated h i.
Proof.
  revert h. induction ls as [|l ls IH]; intros h; [reflexivity|].
  cbn. unfold resolveHeap in IH. rewrite IH. apply allocated_alter.
Qed.

Lemma traverse_resolveModule self ls w :
  Forall (allocated (heap w)) ls ->
  exists us, traverse (resolveModule self) ls w
             = (Ok us, set_heap (resolveHeap self ls (heap w)) w).
Proof.
  revert w. induction ls as [|l ls IH]; intros w HF.
  - exists []. cbn. unfold ret. now rewrite set_heap_same.
  - inversion HF as [|? ? Hl Hls]; subst.
    cbn [traverse]. unfold bind at 1. rewrite (resolveModule_run _ _ _ Hl).
    destruct (IH (set_heap (alter (resolveValue self) l (heap w)) w)) as [us Hus].
    { cbn. eapply Forall_impl; [exact Hls|]. intros i Hi. now apply allocated_alter. }
    unfold bind at 1. rewrite Hus. exists (tt :: us). reflexivity.
Qed.

(** ** The module source *)

Lemma getThirdPartyLibs_hit self p c w locs :
  cache w !! cacheKey self = Some locs ->
  _getThirdPartyLibs self p c w
  = (Ok locs, log (EvCacheGet (engineVersionHash self) "ThirdPartyLibraries") w).
Proof.
  intros E. unfold _getThirdPartyLibs, bind, getCachedDataKey.
  unfold cacheKey in E. now rewrite E.
Qed.

Lemma traverse_allocModule ms w :
  traverse allocModule ms w
  = (Ok (fst (allocAll ms (heap w))), set_heap (snd (allocAll ms (heap w))) w).
Proof.
  revert w. induction ms as [|m ms IH]; intros w.
  - cbn. unfold ret. now rewrite set_heap_same.
  - cbn [traverse allocAll]. unfold bind at 1.
    unfold allocModule at 1, bind at 1, alloc at 1, ret at 1.
    unfold bind at 1. rewrite IH. reflexivity.
Qed.

Lemma allocAll_spec ms : forall h,
  let r := allocAll ms h in
  map snd (fst r) = ms /\
  NoDup (map fst (fst r)) /\
  h ⊆ snd r /\
  Forall (fun lm => snd r !! fst lm = Some (snd lm) /\ h !! fst lm = None) (fst r).
Proof.
  induction ms as [|m ms IH]; intros h; cbn.
  - split; [reflexivity | split; [constructor | split; [reflexivity | constructor]]].
  - set (l := fresh (dom h)).
    assert (Hl : h !! l = None).
    { apply not_elem_of_dom. apply is_fresh. }
    destruct (IH (<[l := m]> h)) as (Hms & Hnd & Hsub & Hall).
    split; [|split; [|split]].
    + now rewrite Hms.
    + constructor; [|exact Hnd].
      intros Hin. apply list_elem_of_fmap in Hin as ([l' m'] & -> & Hin).
      rewrite Forall_forall in Hall. destruct (Hall _ Hin) as [_ Hnone].
      cbn in Hnone. now rewrite lookup_insert_eq in Hnone.
    + etrans; [|exact Hsub]. now apply insert_subseteq.
    + constructor.
      * cbn. split; [|exact Hl].
        eapply lookup_weaken; [|exact Hsub]. apply lookup_insert_eq.
      * eapply Forall_impl; [exact Hall|]. intros [l' m'] [H1 H2]. cbn in *.
        split; [exact H1|].
        destruct (decide (l = l')) as [<-|Hne]; [now rewrite lookup_insert_eq in H2|].
        now rewrite lookup_insert_ne in H2.
Qed.

Lemma getThirdPartyLibs_miss self p c w :
  cache w !! cacheKey self = None ->
  _getThirdPartyLibs self p c w = moduleSourceMiss self p c w.
Proof.
  intros E. unfold _getThirdPartyLibs, moduleSourceMiss.
  unfold bind at 1. unfold getCachedDataKey at 1. unfold cacheKey in E. rewrite E.
  unfold bind at 1. unfold mkdtemp at 1.
  unfold bind at 1. unfold platform_system at 1.
  unfold bind at 1. unfold runUBT at 1. unfold bind at 1. unfold emit at 1.
  unfold ubtOutcome, ubtTarget, ubtArgs, toolStarted. cbn [hostSystem log set_tempDirs tempDirs].
  destruct (runUBTFunc self _ p c _) as [|[[|ms]|]].
  - reflexivity.
  - unfold bind, loadExport. cbn [tempDirs set_tempDirs log]. now rewrite lookup_insert_eq.
  - unfold bind at 1. unfold loadExport at 1.
    cbn [tempDirs set_tempDirs log]. rewrite lookup_insert_eq.
    unfold bind at 1. rewrite traverse_allocModule.
    unfold bind at 1. unfold try_except_pass at 1, rmtree at 1, removalAttempted.
    cbn [rmtreeFails set_heap log set_tempDirs].
    destruct (rmtreeFails w _); reflexivity.
  - unfold ret at 1. unfold bind, loadExport. cbn [tempDirs set_tempDirs log].
    now rewrite lookup_insert_eq.
Qed.

(** ** [interrogate] from the module source on *)

Lemma heapPairs_fst h ls l m : (l, m) ∈ heapPairs h ls -> l ∈ ls /\ h !! l = Some m.
Proof.
  unfold heapPairs. rewrite list_elem_of_omap. intros (l' & Hin & E).
  destruct (h !! l') as [m'|] eqn:E'; cbn in E; [|discriminate].
  now inversion E; subst.
Qed.

Lemma selectedLocs_elem libModules h locs l :
  l ∈ selectedLocs libModules h locs ->
  l ∈ locs /\ exists m, h !! l = Some m /\ Name m ∈ libModules.
Proof.
  unfold selectedLocs, selectModules. rewrite list_elem_of_fmap.
  intros ([l' m] & -> & Hin). apply list_elem_of_filter in Hin as [Hn Hin].
  apply heapPairs_fst in Hin as [Hin E]. cbn in *. eauto.
Qed.

Lemma selectedLocs_allocated libModules h locs :
  Forall (allocated h) (selectedLocs libModules h locs).
Proof.
  apply Forall_forall. intros l Hl.
  apply selectedLocs_elem in Hl as (_ & m & E & _). now exists m.
Qed.

Lemma heap_warned libModules names w : heap (warned libModules names w) = heap w.
Proof. unfold warned. now destruct (Nat.ltb _ _). Qed.

Lemma interrogate_no_modules self p c libraries ovs w :
  libModulesOf libraries ovs = [] ->
  interrogate self p c libraries ovs w
  = (Ok (fold_left merge (overridesToApply libraries ovs) emptyDetails), w).
Proof. intros E. unfold interrogate. rewrite E. reflexivity. Qed.

Lemma length_pos_ltb {A} (l : list A) : l <> [] -> Nat.ltb 0 (length l) = true.
Proof. destruct l; [congruence|reflexivity]. Qed.

Lemma interrogate_raises self p c libraries ovs w e w1 :
  libModulesOf libraries ovs <> [] ->
  _getThirdPartyLibs self p c w = (Raise e, w1) ->
  interrogate self p c libraries ovs w = (Raise e, w1).
Proof.
  intros Hne Hsrc. unfold interrogate. rewrite (length_pos_ltb _ Hne).
  unfold bind. now rewrite Hsrc.
Qed.

Lemma interrogate_run self p c libraries ovs w locs w1 :
  libModulesOf libraries ovs <> [] ->
  _getThirdPartyLibs self p c w = (Ok locs, w1) ->
  Forall (allocated (heap w1)) locs ->
  interrogate self p c libraries ovs w = interrogateFrom self libraries ovs locs w1.
Proof.
  intros Hne Hsrc Hall. unfold interrogate, interrogateFrom.
  rewrite (length_pos_ltb _ Hne).
  unfold bind at 1. unfold bind at 1. rewrite Hsrc.
  unfold bind at 1. rewrite (traverse_derefPair _ _ Hall).
  fold (selectedLocs (libModulesOf libraries ovs) (heap w1) locs).
  set (sel := selectedLocs (libModulesOf libraries ovs) (heap w1) locs).
  assert (Hsel : Forall (allocated (heap w1)) sel) by apply selectedLocs_allocated.
  unfold bind at 1. rewrite (traverse_names _ _ Hsel).
  set (names := map Name (heapModules (heap w1) sel)).
  unfold bind at 1.
  assert (Hw : (if Nat.ltb 0 (length (unsupportedOf (libModulesOf libraries ovs) names))
                then printStderr ("Warning: unsupported libraries " +:+
                       PyStr.join "," (unsupportedOf (libModulesOf libraries ovs) names))
                else ret tt) w1
               = (Ok tt, warned (libModulesOf libraries ovs) names w1)).
  { unfold warned, warning. destruct (Nat.ltb _ _); reflexivity. }
  rewrite Hw. clear Hw.
  set (w2 := warned (libModulesOf libraries ovs) names w1).
  assert (Hh : heap w2 = heap w1) by apply heap_warned.
  destruct (traverse_resolveModule self sel w2) as [us Hus].
  { now rewrite Hh. }
  unfold bind at 1. rewrite Hus.
  unfold bind at 1. rewrite traverse_deref.
  - reflexivity.
  - cbn [heap set_heap]. eapply Forall_impl; [exact Hsel|].
    intros l Hl. apply allocated_resolveHeap. now rewrite Hh.
Qed.


Lemma interrogate_Ok_inv self p c libraries ovs w r w' :
  libModulesOf libraries ovs <> [] ->
  interrogate self p c libraries ovs w = (Ok r, w') ->
  exists locs w1,
    _getThirdPartyLibs self p c w = (Ok locs, w1) /\
    Forall (allocated (heap w1)) locs /\
    interrogateFrom self libraries ovs locs w1 = (Ok r, w').
Proof.
  intros Hne Hrun.
  destruct (_getThirdPartyLibs self p c w) as [[locs|e] w1] eqn:Hsrc.
  - exists locs, w1. split; [reflexivity|].
    destruct (decide (Forall (allocated (heap w1)) locs)) as [Hall|Hnall].
    + split; [exact Hall|]. now rewrite <- (interrogate_run _ _ _ _ _ _ _ _ Hne Hsrc Hall).
    + exfalso. destruct (traverse_derefPair_raises _ _ Hnall) as [e He].
      unfold interrogate in Hrun. rewrite (length_pos_ltb _ Hne) in Hrun.
      unfold bind in Hrun. rewrite Hsrc, He in Hrun. discriminate.
  - rewrite (interrogate_raises _ _ _ _ _ _ _ _ Hne Hsrc) in Hrun. discriminate.
Qed.

(** ** Overrides only *)

Lemma libModulesOf_nil libraries (ovs : gmap string ThirdPartyLibraryDetails) :
  (forall lib, lib ∈ libraries -> is_Some (ovs !! lib)) ->
  libModulesOf libraries ovs = [].
Proof.
  intros Hall. unfold libModulesOf.
  induction libraries as [|lib rest IH]; [reflexivity|].
  rewrite filter_cons. destruct (decide (ovs !! lib = None)) as [E|_].
  - destruct (Hall lib) as [o Ho]; [left|]. congruence.
  - apply IH. intros l Hl. apply Hall. now right.
Qed.

Lemma overridesToApply_all libraries (ovs : gmap string ThirdPartyLibraryDetails) :
  (forall lib, lib ∈ libraries -> is_Some (ovs !! lib)) ->
  Forall2 (fun lib o => ovs !! lib = Some o) libraries (overridesToApply libraries ovs).
Proof.
  intros Hall. unfold overridesToApply.
  induction libraries as [|lib rest IH]; [constructor|].
  destruct (Hall lib) as [o Ho]; [left|].
  cbn. rewrite Ho. constructor; [exact Ho|].
  apply IH. intros l Hl. apply Hall. now right.
Qed.

(** C8. When every requested name has an override, [interrogate] leaves the
    world as it was (the tool is not run, the module source is not asked, and
    nothing is logged) and returns the empty result merged with the override
    of each requested name, one per listed name and in the order listed. *)
Theorem interrogate_overrides_only self p c libraries
    (ovs : gmap string ThirdPartyLibraryDetails) w :
  (forall lib, lib ∈ libraries -> is_Some (ovs !! lib)) ->
  exists applied,
    Forall2 (fun lib o => ovs !! lib = Some o) libraries applied /\
    interrogate self p c libraries ovs w
    = (Ok (fold_left merge applied emptyDetails), w).
Proof.
  intros Hall. exists (overridesToApply libraries ovs).
  split; [now apply overridesToApply_all|].
  apply interrogate_no_modules. now apply libModulesOf_nil.
Qed.

Lemma interrogate_overrides_only_witness :
  exists applied,
    Forall2 (fun lib o => ({[ "zlib" := zlibOverride ]} : gmap string _) !! lib = Some o)
      ["zlib"] applied /\
    interrogate brokenInterrogator "Linux" "Development" ["zlib"]
      {[ "zlib" := zlibOverride ]} freshWorld
    = (Ok (fold_left merge applied emptyDetails), freshWorld).
Proof.
  apply (interrogate_overrides_only brokenInterrogator "Linux" "Development"
           ["zlib"] {[ "zlib" := zlibOverride ]} freshWorld).
  intros lib Hin. apply list_elem_of_singleton in Hin. subst lib.
  exists zlibOverride. reflexivity.
Defined.

(** ** What the module source leaves behind *)

Lemma trace_removalAttempted d w :
  trace (removalAttempted d w) = trace w ++ [EvRmtree d].
Proof. unfold removalAttempted. now destruct (rmtreeFails w d). Qed.

Lemma heap_removalAttempted d w : heap (removalAttempted d w) = heap w.
Proof. unfold removalAttempted. now destruct (rmtreeFails w d). Qed.

Lemma cache_removalAttempted d w : cache (removalAttempted d w) = cache w.
Proof. unfold removalAttempted. now destruct (rmtreeFails w d). Qed.

Lemma trace_toolStarted self p c w :
  trace (toolStarted self p c w)
  = trace w ++ [EvCacheGet (engineVersionHash self) "ThirdPartyLibraries";
                EvMkdtemp (fresh (dom (tempDirs w)));
                EvRunUBT (ubtTarget w) p c (ubtArgs (fresh (dom (tempDirs w))))].
Proof. unfold toolStarted. cbn. now rewrite <- !app_assoc. Qed.

(** The events of one run of the module source. *)
Lemma getThirdPartyLibs_trace self p c w res w1 :
  _getThirdPartyLibs self p c w = (res, w1) ->
  exists evs, trace w1 = trace w ++ evs /\ diagnostics evs = [].
Proof.
  destruct (cache w !! cacheKey self) as [locs|] eqn:E.
  - rewrite (getThirdPartyLibs_hit _ _ _ _ _ E). intros [= <- <-].
    eexists. split; reflexivity.
  - rewrite (getThirdPartyLibs_miss _ _ _ _ E). unfold moduleSourceMiss.
    destruct (ubtOutcome self p c w _) as [|[[|ms]|]]; intros [= <- <-];
      cbn [trace log set_tempDirs set_cache set_heap];
      rewrite ?trace_removalAttempted; cbn [trace log set_tempDirs set_cache set_heap];
      rewrite trace_toolStarted, <- ?app_assoc;
      (eexists; split; [reflexivity|reflexivity]).
Qed.

Lemma diagnostics_app t1 t2 : diagnostics (t1 ++ t2) = diagnostics t1 ++ diagnostics t2.
Proof. unfold diagnostics. apply omap_app. Qed.

Lemma getThirdPartyLibs_diagnostics self p c w res w1 :
  _getThirdPartyLibs self p c w = (res, w1) ->
  diagnostics (trace w1) = diagnostics (trace w).
Proof.
  intros H. apply getThirdPartyLibs_trace in H as (evs & -> & Hd).
  now rewrite diagnostics_app, Hd, app_nil_r.
Qed.

(** ** Requested names without a module *)

Lemma heapModules_elem h ls m :
  m ∈ heapModules h ls <-> exists l, l ∈ ls /\ h !! l = Some m.
Proof. unfold heapModules. apply list_elem_of_omap. Qed.

Lemma selectedLocs_elem_iff libModules h locs l :
  l ∈ selectedLocs libModules h locs <->
  l ∈ locs /\ exists m, h !! l = Some m /\ Name m ∈ libModules.
Proof.
  split; [apply selectedLocs_elem|].
  intros (Hin & m & E & Hn). unfold selectedLocs, selectModules.
  apply list_elem_of_fmap. exists (l, m). split; [reflexivity|].
  apply list_elem_of_filter. split; [exact Hn|].
  unfold heapPairs. apply list_elem_of_omap. exists l. split; [exact Hin|].
  now rewrite E.
Qed.

(** A requested name is the name of a selected module exactly when it is the
    name of some module of the list. *)
Lemma selected_name_iff libModules h locs n :
  n ∈ libModules ->
  n ∈ map Name (heapModules h (selectedLocs libModules h locs)) <->
  n ∈ map Name (heapModules h locs).
Proof.
  intros Hn. rewrite !list_elem_of_fmap. split.
  - intros (m & -> & Hm). exists m. split; [reflexivity|].
    apply heapModules_elem in Hm as (l & Hl & E).
    apply selectedLocs_elem in Hl as [Hl _].
    apply heapModules_elem. eauto.
  - intros (m & -> & Hm). exists m. split; [reflexivity|].
    apply heapModules_elem in Hm as (l & Hl & E).
    apply heapModules_elem. exists l. split; [|exact E].
    apply selectedLocs_elem_iff. eauto.
Qed.

Lemma filter_ext_elem {A} (P Q : A -> Prop)
    `{forall x, Decision (P x)} `{forall x, Decision (Q x)} (l : list A) :
  (forall x, x ∈ l -> (P x <-> Q x)) -> filter P l = filter Q l.
Proof.
  induction l as [|x l IH]; intros Hext; [reflexivity|].
  rewrite !filter_cons.
  rewrite IH by (intros y Hy; apply Hext; now right).
  destruct (decide (P x)) as [HP|HP], (decide (Q x)) as [HQ|HQ]; try reflexivity;
    exfalso; apply (Hext x (list_elem_of_here x l)) in HP || apply HP, (Hext x (list_elem_of_here x l)); tauto.
Qed.

Lemma unsupportedOf_all libModules h locs :
  unsupportedOf libModules (map Name (heapModules h (selectedLocs libModules h locs)))
  = map (fun n => dquote +:+ n +:+ dquote)
      (filter (fun n => n ∉ map Name (heapModules h locs)) libModules).
Proof.
  unfold unsupportedOf. f_equal.
  apply filter_ext_elem. intros n Hn.
  now rewrite (selected_name_iff _ _ _ _ Hn).
Qed.

Lemma moduleDetails_nil self : moduleDetails self [] = emptyDetails.
Proof. reflexivity. Qed.

Lemma heapModules_nil_locs h : heapModules h [] = [].
Proof. reflexivity. Qed.

(** C9. Let the module source return the list [locs]. If some requested
    name that has no override is the name of no module of the list, then
    [interrogate] returns; it writes one message to the error stream, the
    warning with all such names quoted and joined with commas; its result is
    composed from the modules whose name was requested, with the overrides
    merged, and is the overrides merged into the empty result when no module
    was found. *)
Theorem interrogate_unsupported self p c libraries
    (ovs : gmap string ThirdPartyLibraryDetails) w locs w1 :
  _getThirdPartyLibs self p c w = (Ok locs, w1) ->
  Forall (allocated (heap w1)) locs ->
  let libModules := libModulesOf libraries ovs in
  let unmatched := filter (fun n => n ∉ map Name (heapModules (heap w1) locs)) libModules in
  let found := selectedLocs libModules (heap w1) locs in
  unmatched <> [] ->
  exists r w',
    interrogate self p c libraries ovs w = (Ok r, w') /\
    diagnostics (trace w')
    = diagnostics (trace w) ++
      ["Warning: unsupported libraries " +:+
       PyStr.join "," (map (fun n => dquote +:+ n +:+ dquote) unmatched)] /\
    (forall l, l ∈ found <->
               l ∈ locs /\ exists m, heap w1 !! l = Some m /\ Name m ∈ libModules) /\
    r = fold_left merge (overridesToApply libraries ovs)
          (moduleDetails self (heapModules (heap w') found)) /\
    (found = [] -> r = fold_left merge (overridesToApply libraries ovs) emptyDetails).
Proof.
  intros Hsrc Hall libModules unmatched found Hun.
  assert (Hne : libModules <> []).
  { intros E. apply Hun. unfold unmatched. now rewrite E. }
  rewrite (interrogate_run _ _ _ _ _ _ _ _ Hne Hsrc Hall).
  unfold interrogateFrom. fold libModules. fold found.
  set (names := map Name (heapModules (heap w1) found)).
  assert (Hmsg : unsupportedOf libModules names
                 = map (fun n => dquote +:+ n +:+ dquote) unmatched)
    by apply unsupportedOf_all.
  assert (Hw : warned libModules names w1
               = log (EvStderr (warning (map (fun n => dquote +:+ n +:+ dquote) unmatched))) w1).
  { unfold warned. rewrite Hmsg. rewrite length_pos_ltb; [reflexivity|].
    destruct unmatched; [congruence|discriminate]. }
  rewrite Hw. eexists _, _. split; [reflexivity|].
  cbn [trace heap set_heap log]. split; [|split; [|split]].
  - rewrite diagnostics_app, (getThirdPartyLibs_diagnostics _ _ _ _ _ _ Hsrc). reflexivity.
  - intros l. apply selectedLocs_elem_iff.
  - reflexivity.
  - intros ->. reflexivity.
Qed.

Lemma interrogate_unsupported_witness :
  exists r w',
    interrogate sampleInterrogator "Linux" "Development" ["zlib"; "bogus"] ∅ freshWorld
    = (Ok r, w') /\
    diagnostics (trace w')
    = [String.append "Warning: unsupported libraries "
         (String.append dquote (String.append "bogus" dquote))].
Proof.
  destruct (interrogate_unsupported sampleInterrogator "Linux" "Development"
              ["zlib"; "bogus"] ∅ freshWorld [1; 2]
              (snd (_getThirdPartyLibs sampleInterrogator "Linux" "Development" freshWorld)))
    as (r & w' & Hrun & Hdiag & _).
  - vm_compute. reflexivity.
  - vm_compute. repeat constructor; eexists; reflexivity.
  - vm_compute. discriminate.
  - exists r, w'. split; [exact Hrun|]. rewrite Hdiag. vm_compute. reflexivity.
Defined.

(** ** Flattening *)

(** The guard of the transformation never selects [None]: no key of [fields]
    is ["Definitions"]. *)
Lemma transformFor_always self field :
  transformFor self field = Some (_absolutePaths (engineRoot self)).
Proof. now destruct field. Qed.

Lemma flattened_spec self modules field :
  flattened self modules field
  = _absolutePaths (engineRoot self) (concat (map as_list (map (getField field) modules))).
Proof. unfold flattened, _flatten. now rewrite transformFor_always. Qed.

Lemma absolutePaths_app root xs ys :
  _absolutePaths root (xs ++ ys) = _absolutePaths root xs ++ _absolutePaths root ys.
Proof. unfold _absolutePaths. now rewrite !map_app. Qed.

Lemma absolutePaths_concat root xss :
  _absolutePaths root (concat xss) = concat (map (_absolutePaths root) xss).
Proof.
  induction xss as [|xs xss IH]; [reflexivity|].
  cbn [concat map]. now rewrite absolutePaths_app, IH.
Qed.

Lemma flattened_elem self modules field x :
  x ∈ flattened self modules field <->
  exists m, m ∈ modules /\ x ∈ _absolutePaths (engineRoot self) (as_list (getField field m)).
Proof.
  rewrite flattened_spec, absolutePaths_concat, !map_map.
  rewrite list_elem_of_In, in_concat. split.
  - intros (ys & Hys & Hx). apply in_map_iff in Hys as (m & <- & Hm).
    exists m. now rewrite !list_elem_of_In.
  - intros (m & Hm & Hx). eexists. split; [|apply list_elem_of_In, Hx].
    apply in_map_iff. exists m. split; [reflexivity|]. now apply list_elem_of_In.
Qed.

(** ** Prefix directories *)

Lemma list_of_set_elem xs x : x ∈ list_of_set xs <-> x ∈ xs.
Proof. unfold list_of_set. apply elem_of_remove_dups. Qed.



(** C1. The definitions do not pass through unaltered: no key of [fields] is
    ["Definitions"], so [_absolutePaths] is applied to [PublicDefinitions]
    as to every other field. Here the definition [ZLIB_HEADER=zlib/zlib.h] of
    the module comes out rebased on the engine root. *)
Theorem interrogate_rewrites_definitions :
  exists r w',
    interrogate sampleInterrogator "Linux" "Development" ["zlib"] ∅ freshWorld = (Ok r, w') /\
    as_list (PublicDefinitions zlibModule) = ["WITH_ZLIB=1"; "ZLIB_HEADER=zlib/zlib.h"] /\
    definitions r = ["WITH_ZLIB=1"; "/opt/UE/Engine/Source/ZLIB_HEADER=zlib/zlib.h"].
Proof. eexists _, _. split; [vm_compute; reflexivity|]. split; reflexivity. Qed.

(** ** The heap after the loop *)

Lemma resolveHeap_lookup self ls : forall h l,
  resolveHeap self ls h !! l
  = Nat.iter (count_occ Nat.eq_dec ls l) (resolveValue self) <$> (h !! l).
Proof.
  induction ls as [|a ls IH]; intros h l.
  - cbn. now destruct (h !! l).
  - change (resolveHeap self (a :: ls) h)
      with (resolveHeap self ls (alter (resolveValue self) a h)).
    rewrite IH, lookup_alter. cbn [count_occ].
    destruct (Nat.eq_dec a l) as [->|Hne].
    + rewrite decide_True by reflexivity.
      destruct (h !! l) as [m|]; [|reflexivity].
      cbn [fmap option_fmap option_map]. f_equal.
      symmetry. apply Nat.iter_succ_r.
    + now rewrite decide_False by exact Hne.
Qed.

Lemma resolveValue_field self field m :
  field <> FPublicAdditionalLibraries ->
  getField field (resolveValue self m) = getField field m.
Proof.
  intros Hf. unfold resolveValue. destruct (needsResolution m); [|reflexivity].
  destruct field; try reflexivity. congruence.
Qed.

Lemma resolveValue_Name self m : Name (resolveValue self m) = Name m.
Proof. unfold resolveValue. now destruct (needsResolution m). Qed.

Lemma iter_resolveValue_field self field n m :
  field <> FPublicAdditionalLibraries ->
  getField field (Nat.iter n (resolveValue self) m) = getField field m.
Proof.
  intros Hf. induction n as [|n IH]; [reflexivity|].
  cbn [Nat.iter nat_rect]. now rewrite resolveValue_field.
Qed.

Lemma iter_resolveValue_Name self n m :
  Name (Nat.iter n (resolveValue self) m) = Name m.
Proof.
  induction n as [|n IH]; [reflexivity|].
  cbn [Nat.iter nat_rect]. now rewrite resolveValue_Name.
Qed.

(** The loop changes no field other than [PublicAdditionalLibraries]. *)
Lemma resolveHeap_field self ls h l m' field :
  field <> FPublicAdditionalLibraries ->
  resolveHeap self ls h !! l = Some m' ->
  exists m, h !! l = Some m /\ getField field m' = getField field m.
Proof.
  intros Hf. rewrite resolveHeap_lookup.
  destruct (h !! l) as [m|]; [|discriminate]. intros [= <-].
  exists m. split; [reflexivity|]. now apply iter_resolveValue_field.
Qed.

Lemma resolveHeap_allocated self ls h l m :
  h !! l = Some m ->
  exists m', resolveHeap self ls h !! l = Some m' /\
             forall field, field <> FPublicAdditionalLibraries ->
                           getField field m' = getField field m.
Proof.
  intros E. rewrite resolveHeap_lookup, E. eexists. split; [reflexivity|].
  intros field Hf. now apply iter_resolveValue_field.
Qed.

(** ** Filtering by requested names *)

Lemma overridesToApply_empty libraries :
  overridesToApply libraries (∅ : gmap string ThirdPartyLibraryDetails) = [].
Proof.
  unfold overridesToApply. induction libraries as [|lib rest IH]; [reflexivity|].
  cbn. now rewrite lookup_empty.
Qed.

Lemma libModulesOf_empty libraries :
  libModulesOf libraries (∅ : gmap string ThirdPartyLibraryDetails) = libraries.
Proof.
  unfold libModulesOf. induction libraries as [|lib rest IH]; [reflexivity|].
  rewrite filter_cons_True by apply lookup_empty. now rewrite IH.
Qed.

Lemma flattened_mono self items1 items2 field :
  (forall m1, m1 ∈ items1 ->
     exists m2, m2 ∈ items2 /\ getField field m2 = getField field m1) ->
  flattened self items1 field ⊆ flattened self items2 field.
Proof.
  intros Hsub x. rewrite !flattened_elem. intros (m1 & Hm1 & Hx).
  destruct (Hsub m1 Hm1) as (m2 & Hm2 & E). exists m2. now rewrite E.
Qed.

(** The dictionaries of a selection after its loop are, up to
    [PublicAdditionalLibraries], among those of a larger selection after
    its loop. *)
Lemma selection_mono self h locs (R M : list string) m1 :
  R ⊆ M ->
  m1 ∈ heapModules (resolveHeap self (selectedLocs R h locs) h) (selectedLocs R h locs) ->
  exists m2,
    m2 ∈ heapModules (resolveHeap self (selectedLocs M h locs) h) (selectedLocs M h locs) /\
    forall field, field <> FPublicAdditionalLibraries ->
                  getField field m2 = getField field m1.
Proof.
  intros HRM Hm1. apply heapModules_elem in Hm1 as (l & Hl & E1).
  rewrite resolveHeap_lookup in E1.
  apply selectedLocs_elem in Hl as (Hlocs & m0 & E0 & Hname).
  rewrite E0 in E1. injection E1 as <-.
  assert (HlM : l ∈ selectedLocs M h locs).
  { apply selectedLocs_elem_iff. split; [exact Hlocs|]. exists m0. split; [exact E0|].
    now apply HRM. }
  destruct (resolveHeap_allocated self (selectedLocs M h locs) h l m0 E0) as (m2 & E2 & Hf).
  exists m2. split.
  - apply heapModules_elem. eauto.
  - intros field Hfield. rewrite (Hf field Hfield).
    symmetry. now apply iter_resolveValue_field.
Qed.

Lemma moduleDetails_mono self items1 items2 :
  (forall m1, m1 ∈ items1 ->
     exists m2, m2 ∈ items2 /\
       forall field, field <> FPublicAdditionalLibraries ->
                     getField field m2 = getField field m1) ->
  includeDirs (moduleDetails self items1) ⊆ includeDirs (moduleDetails self items2) /\
  linkDirs (moduleDetails self items1) ⊆ linkDirs (moduleDetails self items2).
Proof.
  intros Hsub.
  assert (Hfield : forall field, field <> FPublicAdditionalLibraries ->
            flattened self items1 field ⊆ flattened self items2 field).
  { intros field Hf. apply flattened_mono. intros m1 Hm1.
    destruct (Hsub m1 Hm1) as (m2 & Hm2 & E). exists m2. split; [exact Hm2|]. now apply E. }
  unfold moduleDetails. cbn [includeDirs linkDirs]. split.
  - intros x. rewrite !elem_of_app. intros [Hx|[Hx|Hx]].
    + left. revert Hx. now apply Hfield.
    + right. left. revert Hx. now apply Hfield.
    + right. right. revert Hx. now apply Hfield.
  - now apply Hfield.
Qed.

Lemma selectedLocs_nil h locs : selectedLocs [] h locs = [].
Proof.
  destruct (selectedLocs [] h locs) as [|l ls] eqn:E; [reflexivity|].
  assert (Hl : l ∈ selectedLocs [] h locs) by (rewrite E; left).
  apply selectedLocs_elem in Hl as (_ & m & _ & Hm). inversion Hm.
Qed.

Lemma interrogate_plain self p c libraries w locs w1 :
  _getThirdPartyLibs self p c w = (Ok locs, w1) ->
  Forall (allocated (heap w1)) locs ->
  exists r w',
    interrogate self p c libraries ∅ w = (Ok r, w') /\
    (libraries = [] /\ r = emptyDetails \/
     r = moduleDetails self
           (heapModules
              (resolveHeap self (selectedLocs libraries (heap w1) locs) (heap w1))
              (selectedLocs libraries (heap w1) locs))).
Proof.
  intros Hsrc Hall. destruct libraries as [|lib rest].
  - eexists _, _. split; [reflexivity|]. left. split; reflexivity.
  - assert (Hne : libModulesOf (lib :: rest) (∅ : gmap string ThirdPartyLibraryDetails) <> [])
      by (rewrite libModulesOf_empty; discriminate).
    rewrite (interrogate_run _ _ _ _ _ _ _ _ Hne Hsrc Hall).
    unfold interrogateFrom. rewrite overridesToApply_empty, libModulesOf_empty, heap_warned.
    eexists _, _. split; [reflexivity|]. right. reflexivity.
Qed.

(** C7. Let the module source return the modules [M], and let [R] be a list
    of names of modules of [M]. Without overrides, [interrogate] returns for
    [R] and for the names of all modules of [M], and every include directory
    and every link directory of the first result is one of the second. *)
Theorem interrogate_monotone self p c (R : list string) w locs w1 :
  _getThirdPartyLibs self p c w = (Ok locs, w1) ->
  Forall (allocated (heap w1)) locs ->
  R ⊆ map Name (heapModules (heap w1) locs) ->
  exists rR wR rM wM,
    interrogate self p c R ∅ w = (Ok rR, wR) /\
    interrogate self p c (map Name (heapModules (heap w1) locs)) ∅ w = (Ok rM, wM) /\
    includeDirs rR ⊆ includeDirs rM /\
    linkDirs rR ⊆ linkDirs rM.
Proof.
  intros Hsrc Hall HRM. set (M := map Name (heapModules (heap w1) locs)) in *.
  destruct (interrogate_plain self p c R w locs w1 Hsrc Hall) as (rR & wR & HrunR & HR).
  destruct (interrogate_plain self p c M w locs w1 Hsrc Hall) as (rM & wM & HrunM & HM).
  exists rR, wR, rM, wM. split; [exact HrunR|]. split; [exact HrunM|].
  destruct HR as [[-> ->] | ->].
  { split; intros x Hx; inversion Hx. }
  destruct HM as [[EM ->] | ->].
  { assert (R = []) as ->.
    { destruct R as [|n R']; [reflexivity|]. exfalso.
      assert (Hn : n ∈ M) by (apply HRM; left). rewrite EM in Hn. inversion Hn. }
    rewrite selectedLocs_nil. split; intros x Hx; inversion Hx. }
  apply moduleDetails_mono. intros m1 Hm1. now apply (selection_mono self _ _ R M).
Qed.

Lemma interrogate_monotone_witness :
  exists rR wR rM wM,
    interrogate sampleInterrogator "Linux" "Development" ["zlib"] ∅ freshWorld = (Ok rR, wR) /\
    interrogate sampleInterrogator "Linux" "Development" ["zlib"; "libPNG"] ∅ freshWorld
    = (Ok rM, wM) /\
    includeDirs rR ⊆ includeDirs rM /\
    linkDirs rR ⊆ linkDirs rM.
Proof.
  apply (interrogate_monotone sampleInterrogator "Linux" "Development" ["zlib"] freshWorld
           [1; 2]
           (snd (_getThirdPartyLibs sampleInterrogator "Linux" "Development" freshWorld))).
  - vm_compute. reflexivity.
  - vm_compute. repeat constructor; eexists; reflexivity.
  - intros n Hn. apply list_elem_of_singleton in Hn. subst n. vm_compute. left.
Defined.

(** ** The temporary directory *)

Lemma removalsOf_app d t1 t2 : removalsOf d (t1 ++ t2) = removalsOf d t1 ++ removalsOf d t2.
Proof. unfold removalsOf. apply filter_app. Qed.

Lemma tempDirs_toolStarted self p c w :
  tempDirs (toolStarted self p c w) = <[fresh (dom (tempDirs w)) := None]> (tempDirs w).
Proof. reflexivity. Qed.

Lemma tempDirs_removalAttempted d w :
  tempDirs (removalAttempted d w)
  = if rmtreeFails w d then tempDirs w else delete d (tempDirs w).
Proof. unfold removalAttempted. now destruct (rmtreeFails w d). Qed.

Lemma fresh_tempDir (w : World) : tempDirs w !! fresh (dom (tempDirs w)) = None.
Proof. apply not_elem_of_dom. apply is_fresh. Qed.

(** C3 (as amended). On a cache miss the module source makes a new temporary
    directory [d]. When the tool returns and the export is read and parsed,
    the removal of [d] is attempted once and the module list is returned
    whether or not the removal fails: [d] is gone when it succeeds and stays
    when it fails. When the tool raises, or reading or parsing the export
    fails, that error is raised to the caller, no removal is attempted and [d]
    stays. *)
Theorem moduleSource_tempdir self p c w :
  cache w !! cacheKey self = None ->
  let d := fresh (dom (tempDirs w)) in
  (d ∉ dom (tempDirs w)) /\
  (match ubtOutcome self p c w d with
  | UBTReturns (Some (Export ms)) =>
      exists locs w' evs,
        _getThirdPartyLibs self p c w = (Ok locs, w') /\
        trace w' = trace w ++ evs /\
        removalsOf d evs = [EvRmtree d] /\
        tempDirs w' = (if rmtreeFails w d
                       then <[d := Some (Export ms)]> (tempDirs w)
                       else tempDirs w)
  | _ =>
      exists e w' evs,
        _getThirdPartyLibs self p c w = (Raise e, w') /\
        (e = ToolInvocationFailure \/ e = ExportParseFailure) /\
        trace w' = trace w ++ evs /\
        removalsOf d evs = [] /\
        d ∈ dom (tempDirs w')
   end).
Proof.
  intros Hmiss d. split; [apply is_fresh|].
  rewrite (getThirdPartyLibs_miss _ _ _ _ Hmiss). unfold moduleSourceMiss. fold d.
  pose proof (trace_toolStarted self p c w) as Htr. fold d in Htr.
  destruct (ubtOutcome self p c w d) as [|[[|ms]|]].
  - eexists _, _, _. split; [reflexivity|]. split; [now left|].
    split; [exact Htr|]. split; [reflexivity|].
    rewrite tempDirs_toolStarted. fold d. apply elem_of_dom. rewrite lookup_insert_eq. eauto.
  - eexists _, _, _. split; [reflexivity|]. split; [now right|].
    cbn [trace set_tempDirs tempDirs]. split; [exact Htr|]. split; [reflexivity|].
    apply elem_of_dom. rewrite lookup_insert_eq. eauto.
  - eexists _, _, _. split; [reflexivity|].
    cbn [trace log set_cache tempDirs].
    rewrite trace_removalAttempted, tempDirs_removalAttempted.
    cbn [trace set_heap set_tempDirs tempDirs rmtreeFails].
    rewrite Htr, tempDirs_toolStarted, <- !app_assoc. fold d.
    split; [reflexivity|]. split.
    + unfold removalsOf. cbn [app]. rewrite !filter_cons. cbn [isRmtree].
      rewrite Nat.eqb_refl. reflexivity.
    + change (rmtreeFails (toolStarted self p c w)) with (rmtreeFails w).
      rewrite insert_insert_eq. destruct (rmtreeFails w d); [reflexivity|].
      rewrite delete_insert_eq. apply delete_id. apply fresh_tempDir.
  - eexists _, _, _. split; [reflexivity|]. split; [now right|].
    split; [exact Htr|]. split; [reflexivity|].
    rewrite tempDirs_toolStarted. fold d. apply elem_of_dom. rewrite lookup_insert_eq. eauto.
Qed.

Lemma moduleSource_tempdir_witness :
  exists locs w',
    _getThirdPartyLibs sampleInterrogator "Linux" "Development" freshWorld = (Ok locs, w') /\
    tempDirs w' = tempDirs freshWorld.
Proof.
  destruct (moduleSource_tempdir sampleInterrogator "Linux" "Development" freshWorld eq_refl)
    as [_ (locs & w' & evs & Hrun & _ & _ & Ht)].
  exists locs, w'. split; [exact Hrun | exact Ht].
Defined.

(** C3, as first stated, fails: when the export cannot be parsed, the error is
    raised with the temporary directory left in place and no removal
    attempted. *)
Lemma moduleSource_leaves_tempdir :
  exists w',
    _getThirdPartyLibs brokenInterrogator "Linux" "Development" freshWorld
    = (Raise ExportParseFailure, w') /\
    dom (tempDirs freshWorld) = ∅ /\
    dom (tempDirs w') = {[ 0 ]} /\
    removalsOf 0 (trace w') = [].
Proof. eexists. split; [vm_compute; reflexivity|]. split; [|split]; reflexivity. Qed.

(** ** Bare-filename resolution *)

Lemma canonicalSeparators_idem p :
  canonicalSeparators (canonicalSeparators p) = canonicalSeparators p.
Proof.
  induction p as [|a p IH]; [reflexivity|].
  cbn [canonicalSeparators]. rewrite IH.
  destruct (Ascii.eqb a "\") eqn:E; [reflexivity|]. now rewrite E.
Qed.

Lemma hasSlash_canonical p : hasSlash p = true -> hasSlash (canonicalSeparators p) = true.
Proof.
  induction p as [|a p IH]; [discriminate|].
  cbn [hasSlash canonicalSeparators]. rewrite !orb_true_iff. intros [Ha|Hp].
  - left. apply Ascii.eqb_eq in Ha. subst a. reflexivity.
  - right. now apply IH.
Qed.

Lemma hasSlash_app (s t : string) : hasSlash (s +:+ t) = (hasSlash s || hasSlash t)%bool.
Proof.
  induction s as [|a s IH]; [reflexivity|].
  rewrite append_cons. cbn [hasSlash]. now rewrite IH, orb_assoc.
Qed.

Lemma startsWithSlash_hasSlash p : startsWithSlash p = true -> hasSlash p = true.
Proof. destruct p as [|a p]; [discriminate|]. cbn. now intros ->. Qed.

(** The one-element case of [os.path.join], for a name without separator. *)
Lemma join_bare base name :
  hasSlash name = false -> PosixPath.join base [name] = joinOnto base name.
Proof.
  intros Hn. unfold PosixPath.join, PosixPath.join2, joinOnto, PyStr.startswith, PosixPath.sep.
  cbn [fold_left]. rewrite prefix_slash.
  destruct (startsWithSlash name) eqn:E.
  - apply startsWithSlash_hasSlash in E. congruence.
  - now destruct (String.eqb base "" || PyStr.endswith_char base "/")%bool.
Qed.

Lemma resolveLibrary_spec base lib :
  resolveLibrary base (slashes lib) = resolveReference base lib.
Proof.
  unfold resolveLibrary, resolveReference. rewrite slashes_canonical, contains_slash.
  destruct (hasSlash (canonicalSeparators lib)) eqn:E; [reflexivity|].
  now apply join_bare.
Qed.

Lemma resolvedLibraries_spec self m :
  resolvedLibraries self m
  = map (resolveReference (libraryBase self m)) (py_iter (PublicAdditionalLibraries m)).
Proof.
  unfold resolvedLibraries, libraryBase. rewrite map_map. apply map_ext.
  intros lib. apply resolveLibrary_spec.
Qed.

Lemma joinOnto_empty name : joinOnto "" name = name.
Proof. reflexivity. Qed.

Lemma joinOnto_hasSlash base name : base <> "" -> hasSlash (joinOnto base name) = true.
Proof.
  intros Hb. unfold joinOnto.
  destruct (String.eqb base "") eqn:E; [apply String.eqb_eq in E; congruence|].
  cbn [orb]. rewrite !hasSlash_app.
  destruct (PyStr.endswith_char base "/") eqn:Hend.
  - assert (hasSlash base = true) as ->; [|reflexivity].
    clear E Hb. induction base as [|a base IH]; [discriminate|].
    cbn [PyStr.endswith_char] in Hend. cbn [hasSlash].
    destruct base as [|b base].
    + now rewrite Hend.
    + rewrite (IH Hend). apply orb_true_r.
  - cbn. now rewrite orb_true_r.
Qed.

(** However it is obtained, a resolved reference is stable. *)
Lemma resolveReference_stable base lib : stableRef base (resolveReference base lib).
Proof.
  unfold resolveReference, stableRef.
  destruct (hasSlash (canonicalSeparators lib)) eqn:E.
  - left. now rewrite canonicalSeparators_idem.
  - destruct (String.eqb_spec base "") as [->|Hb].
    + right. split; [reflexivity|]. rewrite joinOnto_empty. apply canonicalSeparators_idem.
    + left. apply hasSlash_canonical. now apply joinOnto_hasSlash.
Qed.

(** Resolving a stable reference does not change what path absolutization
    makes of it. *)
Lemma resolveReference_absolutize root base x :
  stableRef base x ->
  absolutizeEveryMarker root (resolveReference base x) = absolutizeEveryMarker root x.
Proof.
  unfold stableRef, resolveReference. intros [Hs|[-> Hc]].
  - rewrite Hs. unfold absolutizeEveryMarker. now rewrite canonicalSeparators_idem.
  - destruct (hasSlash (canonicalSeparators x)).
    + unfold absolutizeEveryMarker. now rewrite canonicalSeparators_idem.
    + now rewrite joinOnto_empty, Hc.
Qed.

(** ** One pass of the loop body over a module *)

Lemma needsResolution_resolveValue self m :
  needsResolution (resolveValue self m) = needsResolution m.
Proof.
  unfold resolveValue. destruct (needsResolution m) eqn:E; [|exact E].
  unfold needsResolution in *. cbn [PublicAdditionalLibraries PublicLibraryPaths
    set_PublicAdditionalLibraries py_len].
  apply andb_true_iff in E as [E1 E2]. rewrite E2, andb_true_r.
  rewrite resolvedLibraries_spec, length_map.
  destruct (PublicAdditionalLibraries m) as [s|l]; cbn [py_iter py_len] in *.
  - clear E2. destruct s; [discriminate|reflexivity].
  - exact E1.
Qed.

Lemma libraryBase_resolveValue self m :
  libraryBase self (resolveValue self m) = libraryBase self m.
Proof. unfold libraryBase, resolveValue. now destruct (needsResolution m). Qed.

Lemma resolveValue_settled self m : settled self (resolveValue self m).
Proof.
  unfold settled. rewrite needsResolution_resolveValue, libraryBase_resolveValue.
  destruct (needsResolution m) eqn:E; [right|now left].
  unfold resolveValue. rewrite E. cbn [PublicAdditionalLibraries set_PublicAdditionalLibraries].
  eexists. split; [reflexivity|].
  rewrite resolvedLibraries_spec. apply Forall_forall. intros x Hx.
  apply list_elem_of_fmap in Hx as (lib & -> & _). apply resolveReference_stable.
Qed.

Lemma sameFlags_refl self m : sameFlags self m m.
Proof. repeat split. Qed.

Lemma sameFlags_trans self m1 m2 m3 :
  sameFlags self m1 m2 -> sameFlags self m2 m3 -> sameFlags self m1 m3.
Proof.
  intros (N1 & F1 & L1) (N2 & F2 & L2). split; [congruence|]. split.
  - intros field Hf. now rewrite (F2 field Hf), (F1 field Hf).
  - congruence.
Qed.

Lemma settled_sameFlags self m : settled self m -> sameFlags self m (resolveValue self m).
Proof.
  intros Hs. split; [apply resolveValue_Name|]. split.
  - intros field Hf. now apply resolveValue_field.
  - unfold resolveValue. destruct (needsResolution m) eqn:E; [|reflexivity].
    destruct Hs as [Hs|(refs & Hrefs & Hst)]; [congruence|].
    cbn [PublicAdditionalLibraries set_PublicAdditionalLibraries as_list].
    rewrite resolvedLibraries_spec, Hrefs. cbn [py_iter as_list].
    rewrite !absolutePaths_pointwise, map_map.
    apply Forall_fmap_ext_1. eapply Forall_impl; [exact Hst|].
    intros x Hx. now apply resolveReference_absolutize.
Qed.

Lemma iter_settled self n m : settled self (Nat.iter (S n) (resolveValue self) m).
Proof. cbn [Nat.iter nat_rect]. apply resolveValue_settled. Qed.

(** Once the loop body has run on a module, running it again changes nothing
    of what the module contributes to the flattened fields. *)
Lemma iter_sameFlags self n k m :
  sameFlags self (Nat.iter (S n) (resolveValue self) m)
                 (Nat.iter (k + S n) (resolveValue self) m).
Proof.
  induction k as [|k IH]; [apply sameFlags_refl|].
  eapply sameFlags_trans; [exact IH|].
  change (Nat.iter (S k + S n) (resolveValue self) m)
    with (resolveValue self (Nat.iter (k + S n) (resolveValue self) m)).
  apply settled_sameFlags.
  replace (k + S n) with (S (k + n)) by lia. apply iter_settled.
Qed.

(** ** The selection *)

Lemma selectedLocs_cons libModules h l ls :
  selectedLocs libModules h (l :: ls)
  = match h !! l with
    | Some m => if decide (Name m ∈ libModules)
                then l :: selectedLocs libModules h ls
                else selectedLocs libModules h ls
    | None => selectedLocs libModules h ls
    end.
Proof.
  unfold selectedLocs, selectModules, heapPairs. cbn [omap list_omap].
  destruct (h !! l) as [m|]; cbn [fmap option_fmap option_map]; [|reflexivity].
  rewrite filter_cons. cbn [snd]. now destruct (decide (Name m ∈ libModules)).
Qed.



(** The loop does not change which modules are selected. *)
Lemma selectedLocs_resolveHeap self ls libModules h locs :
  selectedLocs libModules (resolveHeap self ls h) locs = selectedLocs libModules h locs.
Proof.
  induction locs as [|l locs IH]; [reflexivity|].
  rewrite !selectedLocs_cons, IH, resolveHeap_lookup.
  destruct (h !! l) as [m|]; [|reflexivity].
  cbn [fmap option_fmap option_map]. now rewrite iter_resolveValue_Name.
Qed.

Lemma count_occ_selected (ls : list loc) l :
  l ∈ ls -> exists n, count_occ Nat.eq_dec ls l = S n.
Proof.
  intros Hl. apply list_elem_of_In in Hl.
  apply (count_occ_In Nat.eq_dec) in Hl.
  destruct (count_occ Nat.eq_dec ls l) as [|n]; [lia|]. now exists n.
Qed.



(** ** Flattening modules that contribute the same *)

Lemma flattened_sameFlags self items1 items2 field :
  Forall2 (sameFlags self) items1 items2 ->
  flattened self items1 field = flattened self items2 field.
Proof.
  intros HF. rewrite !flattened_spec, !absolutePaths_concat, !map_map. f_equal.
  induction HF as [|m1 m2 items1 items2 (_ & Hf & Hl) _ IH]; [reflexivity|].
  cbn [map]. rewrite IH. f_equal.
  destruct (decide (field = FPublicAdditionalLibraries)) as [->|Hne].
  - cbn [getField]. now rewrite Hl.
  - now rewrite (Hf field Hne).
Qed.

Lemma moduleDetails_sameFlags self items1 items2 :
  Forall2 (sameFlags self) items1 items2 ->
  moduleDetails self items1 = moduleDetails self items2.
Proof.
  intros HF. unfold moduleDetails.
  now rewrite !(flattened_sameFlags self items1 items2) by exact HF.
Qed.

Lemma heapModules_Forall2 (R : Module -> Module -> Prop) h1 h2 ls :
  (forall l, l ∈ ls -> exists m1 m2, h1 !! l = Some m1 /\ h2 !! l = Some m2 /\ R m1 m2) ->
  Forall2 R (heapModules h1 ls) (heapModules h2 ls).
Proof.
  induction ls as [|l ls IH]; intros Hall; [constructor|].
  destruct (Hall l) as (m1 & m2 & E1 & E2 & HR); [left|].
  rewrite (heapModules_cons _ _ _ _ E1), (heapModules_cons _ _ _ _ E2).
  constructor; [exact HR|]. apply IH. intros l' Hl'. apply Hall. now right.
Qed.

(** Running the loop over the same selection a second time does not change
    the composed result. *)
Lemma moduleDetails_second_pass self h sel :
  Forall (allocated h) sel ->
  moduleDetails self (heapModules (resolveHeap self sel h) sel)
  = moduleDetails self (heapModules (resolveHeap self sel (resolveHeap self sel h)) sel).
Proof.
  intros Hall. apply moduleDetails_sameFlags. apply heapModules_Forall2.
  intros l Hl. rewrite Forall_forall in Hall. destruct (Hall l Hl) as [m E].
  rewrite !resolveHeap_lookup, E. cbn [fmap option_fmap option_map].
  destruct (count_occ_selected sel l Hl) as [n ->].
  eexists _, _. split; [reflexivity|]. split; [reflexivity|].
  rewrite <- Nat.iter_add. apply iter_sameFlags.
Qed.

(** ** The cache after a call *)

Lemma cache_warned libModules names w : cache (warned libModules names w) = cache w.
Proof. unfold warned. now destruct (Nat.ltb _ _). Qed.

(** Whatever the module source returns is what the cache holds afterwards. *)
Lemma getThirdPartyLibs_cached self p c w locs w1 :
  _getThirdPartyLibs self p c w = (Ok locs, w1) ->
  cache w1 !! cacheKey self = Some locs.
Proof.
  destruct (cache w !! cacheKey self) as [cached|] eqn:E.
  - rewrite (getThirdPartyLibs_hit _ _ _ _ _ E). now intros [= <- <-].
  - rewrite (getThirdPartyLibs_miss _ _ _ _ E). unfold moduleSourceMiss.
    destruct (ubtOutcome self p c w _) as [|[[|ms]|]]; intros [= <- <-].
    cbn [cache log set_cache]. apply lookup_insert_eq.
Qed.

Lemma sameSet_refl xs : sameSet xs xs.
Proof. now intros x. Qed.

Lemma sameDetails_refl r : sameDetails r r.
Proof. repeat split; intros; assumption. Qed.

(** C4. When a call of [interrogate] returns, the same call made next, in
    the world the first call has left, returns as well, and the two results
    have the same prefix directories, include directories, link directories,
    definitions and libraries, as sets. *)
Theorem interrogate_idempotent self p c libraries
    (ovs : gmap string ThirdPartyLibraryDetails) w r1 w1 :
  interrogate self p c libraries ovs w = (Ok r1, w1) ->
  exists r2 w2,
    interrogate self p c libraries ovs w1 = (Ok r2, w2) /\
    sameDetails r1 r2.
Proof.
  intros Hrun.
  destruct (decide (libModulesOf libraries ovs = [])) as [E|Hne].
  - rewrite (interrogate_no_modules _ _ _ _ _ _ E) in Hrun. injection Hrun as <- <-.
    rewrite (interrogate_no_modules _ _ _ _ _ _ E).
    eexists _, _. split; [reflexivity|apply sameDetails_refl].
  - apply (interrogate_Ok_inv _ _ _ _ _ _ _ _ Hne) in Hrun
      as (locs & wa & Hsrc & Hall & Hfrom).
    unfold interrogateFrom in Hfrom. injection Hfrom as <- <-.
    set (libModules := libModulesOf libraries ovs) in *.
    set (sel := selectedLocs libModules (heap wa) locs).
    set (names := map Name (heapModules (heap wa) sel)).
    set (wb := warned libModules names wa).
    assert (Hhb : heap wb = heap wa) by apply heap_warned.
    set (h1 := resolveHeap self sel (heap wb)).
    assert (Hcache : cache (set_heap h1 wb) !! cacheKey self = Some locs).
    { cbn [cache set_heap]. unfold wb. rewrite cache_warned.
      exact (getThirdPartyLibs_cached _ _ _ _ _ _ Hsrc). }
    pose proof (getThirdPartyLibs_hit self p c _ _ Hcache) as Hsrc2.
    assert (Hall2 : Forall (allocated h1) locs).
    { eapply Forall_impl; [exact Hall|]. intros l Hl. unfold h1.
      apply allocated_resolveHeap. now rewrite Hhb. }
    rewrite (interrogate_run _ _ _ _ _ _ _ _ Hne Hsrc2 Hall2).
    unfold interrogateFrom. fold libModules.
    cbn [heap log set_heap]. rewrite heap_warned. cbn [heap log set_heap].
    assert (Hsel : selectedLocs libModules h1 locs = sel).
    { unfold h1. rewrite selectedLocs_resolveHeap, Hhb. reflexivity. }
    rewrite Hsel.
    eexists _, _. split; [reflexivity|].
    unfold h1. rewrite <- moduleDetails_second_pass; [apply sameDetails_refl|].
    rewrite Hhb. apply selectedLocs_allocated.
Qed.

Lemma interrogate_idempotent_witness :
  exists r2 w2,
    interrogate sampleInterrogator "Linux" "Development" ["zlib"; "libPNG"] ∅
      (snd (interrogate sampleInterrogator "Linux" "Development" ["zlib"; "libPNG"] ∅
              freshWorld))
    = (Ok r2, w2) /\
    sameDetails
      (valueOr emptyDetails
         (interrogate sampleInterrogator "Linux" "Development" ["zlib"; "libPNG"] ∅
            freshWorld))
      r2.
Proof.
  apply (interrogate_idempotent sampleInterrogator "Linux" "Development"
           ["zlib"; "libPNG"] ∅ freshWorld).
  vm_compute. reflexivity.
Defined.

(** ** A selected module after the call *)








(** * Further properties *)

(** ** [list] *)

Lemma sorted_Sorted xs : StronglySorted String.le (sorted xs).
Proof. unfold sorted. apply StronglySorted_merge_sort; apply _. Qed.

Lemma sorted_Permutation xs : sorted xs ≡ₚ xs.
Proof. unfold sorted. apply merge_sort_Permutation. Qed.

Lemma list_run self p c w locs w1 :
  _getThirdPartyLibs self p c w = (Ok locs, w1) ->
  Forall (allocated (heap w1)) locs ->
  list_ self p c w = (Ok (sorted (map Name (heapModules (heap w1) locs))), w1).
Proof.
  intros Hsrc Hall. unfold list_. unfold bind at 1. rewrite Hsrc.
  unfold bind at 1. rewrite (traverse_names _ _ Hall). reflexivity.
Qed.

(** [list] returns the names of the modules of the module source, each as
    often as it is the name of a module, in ascending order. *)
Theorem list_sorted_names self p c w locs w1 :
  _getThirdPartyLibs self p c w = (Ok locs, w1) ->
  Forall (allocated (heap w1)) locs ->
  exists names,
    list_ self p c w = (Ok names, w1) /\
    StronglySorted String.le names /\
    names ≡ₚ map Name (heapModules (heap w1) locs).
Proof.
  intros Hsrc Hall. eexists. split; [exact (list_run _ _ _ _ _ _ Hsrc Hall)|].
  split; [apply sorted_Sorted | apply sorted_Permutation].
Qed.

Lemma list_sorted_names_witness :
  exists names,
    list_ sampleInterrogator "Linux" "Development" freshWorld
    = (Ok names, snd (_getThirdPartyLibs sampleInterrogator "Linux" "Development" freshWorld)) /\
    StronglySorted String.le names /\
    names ≡ₚ ["zlib"; "libPNG"].
Proof.
  apply (list_sorted_names sampleInterrogator "Linux" "Development" freshWorld [1; 2]).
  - vm_compute. reflexivity.
  - vm_compute. repeat constructor; eexists; reflexivity.
Defined.

(** [list] raises what the module source raises. *)
Lemma list_raises self p c w e w1 :
  _getThirdPartyLibs self p c w = (Raise e, w1) ->
  list_ self p c w = (Raise e, w1).
Proof. intros Hsrc. unfold list_, bind. now rewrite Hsrc. Qed.

Lemma names_resolveHeap self ls h locs :
  map Name (heapModules (resolveHeap self ls h) locs) = map Name (heapModules h locs).
Proof.
  induction locs as [|l locs IH]; [reflexivity|].
  unfold heapModules in *. cbn [omap list_omap].
  rewrite resolveHeap_lookup. destruct (h !! l) as [m|]; cbn [fmap option_fmap option_map].
  - cbn [map]. now rewrite IH, iter_resolveValue_Name.
  - exact IH.
Qed.

(** A call of [interrogate] that consults the modules does not change what
    [list] returns: the list [list] returns after the call is the sorted list
    of the names of the modules the module source returned to the call. *)
Theorem list_after_interrogate self p c libraries
    (ovs : gmap string ThirdPartyLibraryDetails) w r w' :
  libModulesOf libraries ovs <> [] ->
  interrogate self p c libraries ovs w = (Ok r, w') ->
  exists names wl wl',
    list_ self p c w = (Ok names, wl) /\
    list_ self p c w' = (Ok names, wl') /\
    toolInvocations (trace wl') = toolInvocations (trace w').
Proof.
  intros Hne Hrun.
  apply (interrogate_Ok_inv _ _ _ _ _ _ _ _ Hne) in Hrun
    as (locs & w1 & Hsrc & Hall & Hfrom).
  unfold interrogateFrom in Hfrom. injection Hfrom as _ <-.
  set (libModules := libModulesOf libraries ovs) in *.
  set (sel := selectedLocs libModules (heap w1) locs).
  set (wb := warned libModules (map Name (heapModules (heap w1) sel)) w1).
  assert (Hhb : heap wb = heap w1) by apply heap_warned.
  set (h1 := resolveHeap self sel (heap wb)).
  assert (Hcache : cache (set_heap h1 wb) !! cacheKey self = Some locs).
  { cbn [cache set_heap]. unfold wb. rewrite cache_warned.
    exact (getThirdPartyLibs_cached _ _ _ _ _ _ Hsrc). }
  pose proof (getThirdPartyLibs_hit self p c _ _ Hcache) as Hsrc2.
  assert (Hall2 : Forall (allocated h1) locs).
  { eapply Forall_impl; [exact Hall|]. intros l Hl. unfold h1.
    apply allocated_resolveHeap. now rewrite Hhb. }
  eexists _, _, _. split; [exact (list_run _ _ _ _ _ _ Hsrc Hall)|].
  rewrite (list_run _ _ _ _ _ _ Hsrc2 Hall2). cbn [heap log set_heap trace].
  split.
  - unfold h1. now rewrite names_resolveHeap, Hhb.
  - cbn [trace log]. unfold toolInvocations. rewrite filter_app. cbn. apply app_nil_r.
Qed.

Lemma list_after_interrogate_witness :
  exists names wl wl',
    list_ sampleInterrogator "Linux" "Development" freshWorld = (Ok names, wl) /\
    list_ sampleInterrogator "Linux" "Development"
      (snd (interrogate sampleInterrogator "Linux" "Development" ["zlib"] ∅ freshWorld))
    = (Ok names, wl') /\
    toolInvocations (trace wl')
    = toolInvocations
        (trace (snd (interrogate sampleInterrogator "Linux" "Development" ["zlib"] ∅
                       freshWorld))).
Proof.
  assert (Hne : libModulesOf ["zlib"] (∅ : gmap string ThirdPartyLibraryDetails) <> [])
    by (vm_compute; intros H; discriminate H).
  apply (list_after_interrogate sampleInterrogator "Linux" "Development" ["zlib"] ∅
           freshWorld
           (valueOr emptyDetails
              (interrogate sampleInterrogator "Linux" "Development" ["zlib"] ∅ freshWorld))
           _ Hne).
  vm_compute. reflexivity.
Defined.

(** ** The module source, beyond the temporary directory *)

Lemma heapModules_thirdParty (h : gmap loc Module) (pairs : list (loc * Module)) :
  Forall (fun lm => h !! fst lm = Some (snd lm)) pairs ->
  heapModules h (thirdPartyOf pairs)
  = filter (fun m => String.eqb (Type_ m) "EngineThirdParty") (map snd pairs).
Proof.
  unfold thirdPartyOf. induction 1 as [|[l m] pairs Hlm _ IH]; [reflexivity|].
  cbn [map snd]. rewrite !filter_cons. cbn [snd fst] in *.
  destruct (decide (String.eqb (Type_ m) "EngineThirdParty")).
  - cbn [map fst]. now rewrite (heapModules_cons _ _ _ _ Hlm), IH.
  - exact IH.
Qed.

Lemma thirdPartyOf_sublist pairs : thirdPartyOf pairs `sublist_of` map fst pairs.
Proof.
  unfold thirdPartyOf. induction pairs as [|[l m] pairs IH]; [constructor|].
  rewrite filter_cons. cbn [snd map fst].
  destruct (decide (String.eqb (Type_ m) "EngineThirdParty")); cbn [map fst]; now constructor.
Qed.

(** On a cache miss with an export that parses, the module source returns
    references to exactly the modules of type ["EngineThirdParty"], in the
    order of the export; the references are new and pairwise distinct, the
    dictionaries that existed are untouched, and the list is what the cache
    holds from then on. *)
Theorem moduleSource_miss_export self p c w ms :
  cache w !! cacheKey self = None ->
  ubtOutcome self p c w (fresh (dom (tempDirs w))) = UBTReturns (Some (Export ms)) ->
  exists locs w',
    _getThirdPartyLibs self p c w = (Ok locs, w') /\
    heapModules (heap w') locs
    = filter (fun m => String.eqb (Type_ m) "EngineThirdParty") ms /\
    NoDup locs /\
    Forall (fun l => heap w !! l = None) locs /\
    heap w ⊆ heap w' /\
    cache w' = <[cacheKey self := locs]> (cache w).
Proof.
  intros Hmiss Hout. rewrite (getThirdPartyLibs_miss _ _ _ _ Hmiss).
  unfold moduleSourceMiss. rewrite Hout.
  eexists _, _. split; [reflexivity|].
  cbn [heap cache log set_cache set_tempDirs set_heap].
  rewrite heap_removalAttempted, cache_removalAttempted.
  cbn [heap cache log set_cache set_tempDirs set_heap].
  change (heap (toolStarted self p c w)) with (heap w).
  change (cache (toolStarted self p c w)) with (cache w).
  destruct (allocAll_spec ms (heap w)) as (Hms & Hnd & Hsub & Hall).
  split; [|split; [|split; [|split]]].
  - rewrite heapModules_thirdParty; [now rewrite Hms|].
    eapply Forall_impl; [exact Hall|]. now intros lm [H1 _].
  - exact (sublist_NoDup _ _ Hnd (thirdPartyOf_sublist _)).
  - apply Forall_forall. intros l Hl.
    assert (Hl' : l ∈ map fst (fst (allocAll ms (heap w)))).
    { eapply elem_of_sublist; [exact Hl|apply thirdPartyOf_sublist]. }
    apply list_elem_of_fmap in Hl' as (lm & -> & Hin).
    rewrite Forall_forall in Hall. now destruct (Hall lm Hin).
  - exact Hsub.
  - reflexivity.
Qed.

Lemma moduleSource_miss_export_witness :
  exists locs w',
    _getThirdPartyLibs sampleInterrogator "Linux" "Development" freshWorld = (Ok locs, w') /\
    heapModules (heap w') locs = [zlibModule; pngModule] /\
    cache w' = {[ cacheKey sampleInterrogator := locs ]}.
Proof.
  destruct (moduleSource_miss_export sampleInterrogator "Linux" "Development" freshWorld
              [coreModule; zlibModule; pngModule] eq_refl eq_refl)
    as (locs & w' & Hrun & Hmods & _ & _ & _ & Hcache).
  exists locs, w'. split; [exact Hrun|]. split; [exact Hmods|exact Hcache].
Defined.

(** Once the module source has returned a list, its next run returns the
    same list, whatever platform and configuration it is asked for; it runs
    no tool, makes no temporary directory and leaves heap and cache as they
    are. *)
Theorem moduleSource_second_run self p c w locs w1 p' c' :
  _getThirdPartyLibs self p c w = (Ok locs, w1) ->
  exists w2,
    _getThirdPartyLibs self p' c' w1 = (Ok locs, w2) /\
    heap w2 = heap w1 /\ cache w2 = cache w1 /\ tempDirs w2 = tempDirs w1 /\
    toolInvocations (trace w2) = toolInvocations (trace w1).
Proof.
  intros Hsrc. pose proof (getThirdPartyLibs_cached _ _ _ _ _ _ Hsrc) as Hc.
  eexists. split; [exact (getThirdPartyLibs_hit self p' c' w1 locs Hc)|].
  cbn [heap cache tempDirs trace log]. repeat split.
  unfold toolInvocations. rewrite filter_app. cbn. apply app_nil_r.
Qed.

Lemma moduleSource_second_run_witness :
  exists w2,
    _getThirdPartyLibs sampleInterrogator "Win64" "Shipping"
      (snd (_getThirdPartyLibs sampleInterrogator "Linux" "Development" freshWorld))
    = (Ok [1; 2], w2) /\
    toolInvocations (trace w2)
    = [EvRunUBT "UE4Editor" "Linux" "Development" (ubtArgs 0)].
Proof.
  destruct (moduleSource_second_run sampleInterrogator "Linux" "Development" freshWorld [1; 2]
              (snd (_getThirdPartyLibs sampleInterrogator "Linux" "Development" freshWorld))
              "Win64" "Shipping")
    as (w2 & Hrun & _ & _ & _ & Htool).
  - vm_compute. reflexivity.
  - exists w2. split; [exact Hrun|]. rewrite Htool. vm_compute. reflexivity.
Defined.

Lemma moduleSource_failure_facts self p c w e w1 :
  _getThirdPartyLibs self p c w = (Raise e, w1) ->
  cache w !! cacheKey self = None /\
  (e = ToolInvocationFailure \/ e = ExportParseFailure) /\
  cache w1 = cache w /\ heap w1 = heap w.
Proof.
  destruct (cache w !! cacheKey self) as [locs|] eqn:E.
  - rewrite (getThirdPartyLibs_hit _ _ _ _ _ E). discriminate.
  - rewrite (getThirdPartyLibs_miss _ _ _ _ E). unfold moduleSourceMiss.
    destruct (ubtOutcome self p c w _) as [|[[|ms]|]]; intros [= <- <-];
      (split; [reflexivity|]); (split; [tauto|]); split; reflexivity.
Qed.

(** When the module source raises, it was a cache miss, the error is that of
    the tool or of reading and parsing the export, and neither the cache nor
    the heap has changed: nothing is cached for a failed run. *)
Theorem moduleSource_failure self p c w e w1 :
  _getThirdPartyLibs self p c w = (Raise e, w1) ->
  cache w !! cacheKey self = None /\
  (e = ToolInvocationFailure \/ e = ExportParseFailure) /\
  cache w1 = cache w /\ heap w1 = heap w.
Proof.
  destruct (cache w !! cacheKey self) as [locs|] eqn:E.
  - rewrite (getThirdPartyLibs_hit _ _ _ _ _ E). discriminate.
  - rewrite (getThirdPartyLibs_miss _ _ _ _ E). unfold moduleSourceMiss.
    destruct (ubtOutcome self p c w _) as [|[[|ms]|]]; intros [= <- <-];
      (split; [reflexivity|]); (split; [tauto|]); split; reflexivity.
Qed.

Lemma moduleSource_failure_witness :
  cache freshWorld !! cacheKey brokenInterrogator = None /\
  (ExportParseFailure = ToolInvocationFailure \/ ExportParseFailure = ExportParseFailure) /\
  cache (snd (_getThirdPartyLibs brokenInterrogator "Linux" "Development" freshWorld))
  = cache freshWorld /\
  heap (snd (_getThirdPartyLibs brokenInterrogator "Linux" "Development" freshWorld))
  = heap freshWorld.
Proof.
  apply (moduleSource_failure brokenInterrogator "Linux" "Development" freshWorld).
  vm_compute. reflexivity.
Defined.

(** The module source runs the tool once on a cache miss, whatever comes of
    it, and never on a hit; the target is ["UE4Editor"] on a Linux host and
    ["UE4Game"] otherwise, platform and configuration are passed on, and the
    export is asked for inside the new temporary directory. *)
Theorem moduleSource_tool_invocations self p c w :
  exists evs,
    trace (snd (_getThirdPartyLibs self p c w)) = trace w ++ evs /\
    toolInvocations evs
    = match cache w !! cacheKey self with
      | Some _ => []
      | None =>
          [EvRunUBT (if String.eqb (hostSystem w) "Linux" then "UE4Editor" else "UE4Game")
             p c
             ["-gather";
              "-jsonexport=" +:+
                PosixPath.join (tempPath (fresh (dom (tempDirs w)))) ["ubt_output.json"];
              "-SkipBuild"]]
      end.
Proof.
  destruct (cache w !! cacheKey self) as [locs|] eqn:E.
  - rewrite (getThirdPartyLibs_hit _ _ _ _ _ E). eexists. split; reflexivity.
  - rewrite (getThirdPartyLibs_miss _ _ _ _ E). unfold moduleSourceMiss.
    destruct (ubtOutcome self p c w _) as [|[[|ms]|]];
      cbn [snd trace log set_tempDirs set_cache set_heap];
      rewrite ?trace_removalAttempted; cbn [trace log set_tempDirs set_cache set_heap];
      rewrite trace_toolStarted, <- ?app_assoc;
      (eexists; split; [reflexivity|]); reflexivity.
Qed.

(** ** Shapes of absolutized paths *)

Lemma startsWithSlash_app (s t : string) :
  startsWithSlash s = true -> startsWithSlash (s +:+ t) = true.
Proof. destruct s as [|a s]; [discriminate|]. now rewrite append_cons. Qed.

Lemma hasBackslash_app (s t : string) :
  hasBackslash (s +:+ t) = (hasBackslash s || hasBackslash t)%bool.
Proof.
  induction s as [|a s IH]; [reflexivity|].
  rewrite append_cons. cbn [hasBackslash]. now rewrite IH, orb_assoc.
Qed.

Lemma hasBackslash_canonical p : hasBackslash (canonicalSeparators p) = false.
Proof.
  induction p as [|a p IH]; [reflexivity|].
  cbn [canonicalSeparators hasBackslash]. rewrite IH, orb_false_r.
  destruct (Ascii.eqb a "\") eqn:E; [reflexivity|exact E].
Qed.

Lemma canonicalSeparators_id p : hasBackslash p = false -> canonicalSeparators p = p.
Proof.
  induction p as [|a p IH]; [reflexivity|].
  cbn [hasBackslash canonicalSeparators]. intros H.
  apply orb_false_iff in H as [Ha Hp]. now rewrite Ha, IH.
Qed.

Lemma dropEveryMarker_cons3 a b c rest :
  dropEveryMarker (String a (String b (String c rest)))
  = if (Ascii.eqb a "." && Ascii.eqb b "." && Ascii.eqb c "/")%bool
    then dropEveryMarker rest
    else String a (dropEveryMarker (String b (String c rest))).
Proof. reflexivity. Qed.

Lemma hasBackslash_dropEveryMarker_len n : forall p,
  String.length p <= n -> hasBackslash p = false -> hasBackslash (dropEveryMarker p) = false.
Proof.
  induction n as [|n IH]; intros p Hn Hp.
  - destruct p; [reflexivity | cbn in Hn; lia].
  - destruct p as [|a [|b [|c rest]]]; try exact Hp.
    rewrite dropEveryMarker_cons3. cbn [hasBackslash] in Hp. cbn [String.length] in Hn.
    apply orb_false_iff in Hp as [Ha Hp]. apply orb_false_iff in Hp as [Hb Hp].
    apply orb_false_iff in Hp as [Hc Hp].
    destruct (Ascii.eqb a "." && Ascii.eqb b "." && Ascii.eqb c "/")%bool.
    + apply IH; [lia|exact Hp].
    + cbn [hasBackslash]. rewrite Ha. cbn [orb]. apply IH; [cbn [String.length]; lia|].
      cbn [hasBackslash]. now rewrite Hb, Hc, Hp.
Qed.

Lemma hasBackslash_dropEveryMarker p :
  hasBackslash p = false -> hasBackslash (dropEveryMarker p) = false.
Proof. apply (hasBackslash_dropEveryMarker_len (String.length p)). lia. Qed.

Lemma startsWithMarker_shape p : absoluteOrBare p -> startsWithMarker p = false.
Proof.
  intros [Habs|Hbare].
  - destruct p as [|a [|b [|c rest]]]; try reflexivity.
    cbn in Habs. apply Ascii.eqb_eq in Habs. subst a. reflexivity.
  - destruct p as [|a [|b [|c rest]]]; try reflexivity.
    cbn [hasSlash] in Hbare. apply orb_false_iff in Hbare as [_ Hbare].
    apply orb_false_iff in Hbare as [_ Hbare]. apply orb_false_iff in Hbare as [Hc _].
    cbn [startsWithMarker]. rewrite Hc. apply andb_false_r.
Qed.

Lemma startsWithSlash_engineSourceRoot root :
  startsWithSlash root = true -> startsWithSlash (engineSourceRoot root) = true.
Proof. intros H. unfold engineSourceRoot. now apply startsWithSlash_app. Qed.

Lemma hasBackslash_engineSourceRoot root :
  hasBackslash root = false -> hasBackslash (engineSourceRoot root) = false.
Proof.
  intros H. unfold engineSourceRoot. rewrite !hasBackslash_app, H.
  now destruct (String.eqb root "" || PyStr.endswith_char root "/")%bool.
Qed.

Lemma absolutize_shape root p :
  startsWithSlash root = true -> absoluteOrBare (absolutizeEveryMarker root p).
Proof.
  intros Hroot. unfold absolutizeEveryMarker, rebaseOnEngine.
  set (t := if startsWithMarker _ then _ else _).
  destruct (startsWithSlash t) eqn:Habs; [now left|].
  destruct (hasSlash t) eqn:Hs; [|now right].
  left. apply startsWithSlash_app. now apply startsWithSlash_engineSourceRoot.
Qed.

Lemma absolutize_no_backslash root p :
  hasBackslash root = false -> hasBackslash (absolutizeEveryMarker root p) = false.
Proof.
  intros Hroot. unfold absolutizeEveryMarker, rebaseOnEngine.
  set (t := if startsWithMarker _ then _ else _).
  assert (Ht : hasBackslash t = false).
  { unfold t. destruct (startsWithMarker _).
    - apply hasBackslash_dropEveryMarker, hasBackslash_canonical.
    - apply hasBackslash_canonical. }
  destruct (startsWithSlash t || negb (hasSlash t))%bool; [exact Ht|].
  rewrite hasBackslash_app, Ht. now rewrite hasBackslash_engineSourceRoot.
Qed.

Lemma absolutize_fixed root q :
  absoluteOrBare q -> hasBackslash q = false -> absolutizeEveryMarker root q = q.
Proof.
  intros Hshape Hb. unfold absolutizeEveryMarker.
  rewrite (canonicalSeparators_id _ Hb), (startsWithMarker_shape _ Hshape).
  unfold rebaseOnEngine. destruct Hshape as [-> | ->]; [reflexivity|].
  now rewrite orb_true_r.
Qed.

(** With an absolute engine root, every path [_absolutePaths] returns is
    absolute or has no separator. *)
Theorem absolutePaths_absolute_or_bare root paths :
  PosixPath.isabs root = true ->
  Forall absoluteOrBare (_absolutePaths root paths).
Proof.
  unfold PosixPath.isabs, PyStr.startswith, PosixPath.sep. rewrite prefix_slash.
  intros Hroot. rewrite absolutePaths_pointwise. apply Forall_fmap, Forall_forall.
  intros p _. now apply absolutize_shape.
Qed.

Lemma absolutePaths_absolute_or_bare_witness :
  Forall absoluteOrBare
    (_absolutePaths "/opt/UE" ["../ThirdParty/zlib/include"; "foo.lib"; "a\b"; "/usr/lib"]).
Proof. apply absolutePaths_absolute_or_bare. reflexivity. Defined.

(** With an engine root free of backslashes, no path [_absolutePaths]
    returns has a backslash. *)
Theorem absolutePaths_no_backslash root paths :
  hasBackslash root = false ->
  Forall (fun p => hasBackslash p = false) (_absolutePaths root paths).
Proof.
  intros Hroot. rewrite absolutePaths_pointwise. apply Forall_fmap, Forall_forall.
  intros p _. now apply absolutize_no_backslash.
Qed.

Lemma absolutePaths_no_backslash_witness :
  Forall (fun p => hasBackslash p = false)
    (_absolutePaths "/opt/UE" ["..\ThirdParty\zlib\include"; "a\b.lib"]).
Proof. apply absolutePaths_no_backslash. reflexivity. Defined.

(** With an absolute engine root free of backslashes, [_absolutePaths] is
    idempotent: absolutized paths are left as they are. *)
Theorem absolutePaths_idempotent root paths :
  PosixPath.isabs root = true ->
  hasBackslash root = false ->
  _absolutePaths root (_absolutePaths root paths) = _absolutePaths root paths.
Proof.
  unfold PosixPath.isabs, PyStr.startswith, PosixPath.sep. rewrite prefix_slash.
  intros Habs Hb. rewrite !absolutePaths_pointwise, map_map.
  apply map_ext. intros p.
  apply absolutize_fixed; [now apply absolutize_shape | now apply absolutize_no_backslash].
Qed.

Lemma absolutePaths_idempotent_witness :
  _absolutePaths "/opt/UE" (_absolutePaths "/opt/UE" ["../a/../b"; "x\y"; "z.lib"])
  = _absolutePaths "/opt/UE" ["../a/../b"; "x\y"; "z.lib"].
Proof. apply absolutePaths_idempotent; reflexivity. Defined.

(** With a relative engine root the rebased paths are rebased again. *)
Lemma absolutePaths_relative_root :
  _absolutePaths "UE" (_absolutePaths "UE" ["a/b"]) <> _absolutePaths "UE" ["a/b"].
Proof. discriminate. Qed.

(** ** [_flatten] *)

(** Without a transformation, [_flatten] returns the string of every item
    whose field is a string, as one entry and not character by character, and
    the entries of every item whose field is a list; and the flattening of
    items put one after the other is the flattenings put one after the
    other. *)
Theorem flatten_elements field items :
  (forall x, x ∈ _flatten field items None <->
     exists m, m ∈ items /\
       (getField field m = VStr x \/ exists l, getField field m = VList l /\ x ∈ l)) /\
  (forall items', _flatten field (items ++ items') None
                  = _flatten field items None ++ _flatten field items' None).
Proof.
  unfold _flatten. split.
  - intros x. rewrite map_map, list_elem_of_In, in_concat. split.
    + intros (ys & Hys & Hx). apply in_map_iff in Hys as (m & <- & Hm).
      exists m. split; [now apply list_elem_of_In|].
      destruct (getField field m) as [s|l]; cbn [as_list] in Hx.
      * left. destruct Hx as [->|[]]. reflexivity.
      * right. exists l. split; [reflexivity|]. now apply list_elem_of_In.
    + intros (m & Hm & Hx). exists (as_list (getField field m)). split.
      * apply in_map_iff. exists m. split; [reflexivity|]. now apply list_elem_of_In.
      * destruct Hx as [->|(l & -> & Hx)]; cbn [as_list]; [now left|].
        now apply list_elem_of_In.
  - intros items'. now rewrite !map_app, concat_app.
Qed.

(** ** [interrogate]: overrides, failures and what it leaves alone *)

Lemma libModulesOf_idem libraries (ovs : gmap string ThirdPartyLibraryDetails) :
  libModulesOf (libModulesOf libraries ovs) ∅ = libModulesOf libraries ovs.
Proof. apply libModulesOf_empty. Qed.

Lemma bind_ret_map {A B} (d : M A) (f : A -> B) w :
  bind d (fun a => ret (f a)) w
  = match d w with
    | (Ok a, w0) => (Ok (f a), w0)
    | (Raise e, w0) => (Raise e, w0)
    end.
Proof. unfold bind, ret. now destruct (d w) as [[a|e] w0]. Qed.

(** A call with overrides is the call without overrides for the names that
    have none, with the overrides of the requested names merged into its
    result in the order the names are listed; it raises when that call
    raises. *)
Theorem interrogate_overrides_decompose self p c libraries
    (ovs : gmap string ThirdPartyLibraryDetails) w :
  interrogate self p c libraries ovs w
  = match interrogate self p c (libModulesOf libraries ovs) ∅ w with
    | (Ok r0, w0) => (Ok (fold_left merge (overridesToApply libraries ovs) r0), w0)
    | (Raise e, w0) => (Raise e, w0)
    end.
Proof.
  unfold interrogate. rewrite libModulesOf_idem, overridesToApply_empty.
  rewrite (bind_ret_map _ (fold_left merge (overridesToApply libraries ovs))).
  rewrite (bind_ret_map _ (fold_left merge [])).
  match goal with |- context [match ?d w with _ => _ end] => destruct (d w) as [[r0|e] w0] end;
    reflexivity.
Qed.

(** When a requested name has no override and the module source raises,
    [interrogate] raises the same error, whatever overrides there are; no
    warning has been written and nothing has been cached. *)
Theorem interrogate_failure self p c libraries
    (ovs : gmap string ThirdPartyLibraryDetails) w e w1 :
  libModulesOf libraries ovs <> [] ->
  _getThirdPartyLibs self p c w = (Raise e, w1) ->
  interrogate self p c libraries ovs w = (Raise e, w1) /\
  (e = ToolInvocationFailure \/ e = ExportParseFailure) /\
  cache w1 = cache w /\
  diagnostics (trace w1) = diagnostics (trace w).
Proof.
  intros Hne Hsrc. split; [now apply interrogate_raises|].
  destruct (moduleSource_failure_facts _ _ _ _ _ _ Hsrc) as (_ & He & Hc & _).
  split; [exact He|]. split; [exact Hc|].
  exact (getThirdPartyLibs_diagnostics _ _ _ _ _ _ Hsrc).
Qed.

Lemma interrogate_failure_witness :
  interrogate brokenInterrogator "Linux" "Development" ["zlib"; "libPNG"]
    {[ "zlib" := zlibOverride ]} freshWorld
  = (Raise ExportParseFailure,
     snd (_getThirdPartyLibs brokenInterrogator "Linux" "Development" freshWorld)) /\
  cache (snd (_getThirdPartyLibs brokenInterrogator "Linux" "Development" freshWorld))
  = cache freshWorld.
Proof.
  destruct (interrogate_failure brokenInterrogator "Linux" "Development" ["zlib"; "libPNG"]
              {[ "zlib" := zlibOverride ]} freshWorld ExportParseFailure
              (snd (_getThirdPartyLibs brokenInterrogator "Linux" "Development" freshWorld)))
    as (Hrun & _ & Hc & _).
  - vm_compute. intros H. discriminate H.
  - vm_compute. reflexivity.
  - split; [exact Hrun | exact Hc].
Defined.

Lemma getThirdPartyLibs_heap self p c w res w1 :
  _getThirdPartyLibs self p c w = (res, w1) -> heap w ⊆ heap w1.
Proof.
  destruct (cache w !! cacheKey self) as [locs|] eqn:E.
  - rewrite (getThirdPartyLibs_hit _ _ _ _ _ E). now intros [= <- <-].
  - rewrite (getThirdPartyLibs_miss _ _ _ _ E). unfold moduleSourceMiss.
    destruct (ubtOutcome self p c w _) as [|[[|ms]|]]; intros [= <- <-];
      try reflexivity.
    cbn [heap log set_cache]. rewrite heap_removalAttempted. cbn [heap set_heap].
    now destruct (allocAll_spec ms (heap w)) as (_ & _ & Hsub & _).
Qed.

Lemma resolveValue_Type self m : Type_ (resolveValue self m) = Type_ m.
Proof. unfold resolveValue. now destruct (needsResolution m). Qed.

Lemma iter_resolveValue_Type self n m :
  Type_ (Nat.iter n (resolveValue self) m) = Type_ m.
Proof.
  induction n as [|n IH]; [reflexivity|].
  cbn [Nat.iter nat_rect]. now rewrite resolveValue_Type.
Qed.

Lemma count_occ_not_selected (ls : list loc) l :
  l ∉ ls -> count_occ Nat.eq_dec ls l = 0.
Proof.
  intros Hl. apply count_occ_not_In. now rewrite <- list_elem_of_In.
Qed.

(** Whatever dictionary exists before a call of [interrogate] that returns
    exists after it with the same name, type and fields, except for
    [PublicAdditionalLibraries]; and a dictionary whose name was not
    requested, or has an override, is not changed at all. *)
Theorem interrogate_frame self p c libraries
    (ovs : gmap string ThirdPartyLibraryDetails) w r w' l m :
  interrogate self p c libraries ovs w = (Ok r, w') ->
  heap w !! l = Some m ->
  exists m',
    heap w' !! l = Some m' /\
    Name m' = Name m /\ Type_ m' = Type_ m /\
    (forall field, field <> FPublicAdditionalLibraries ->
                   getField field m' = getField field m) /\
    (Name m ∉ libModulesOf libraries ovs -> m' = m).
Proof.
  intros Hrun E.
  destruct (decide (libModulesOf libraries ovs = [])) as [E0|Hne].
  - rewrite (interrogate_no_modules _ _ _ _ _ _ E0) in Hrun. injection Hrun as _ <-.
    exists m. split; [exact E|]. split; [reflexivity|]. split; [reflexivity|].
    split; [reflexivity|reflexivity].
  - apply (interrogate_Ok_inv _ _ _ _ _ _ _ _ Hne) in Hrun
      as (locs & w1 & Hsrc & Hall & Hfrom).
    unfold interrogateFrom in Hfrom. injection Hfrom as _ <-.
    cbn [heap set_heap]. rewrite heap_warned, resolveHeap_lookup.
    assert (E1 : heap w1 !! l = Some m).
    { eapply lookup_weaken; [exact E|]. exact (getThirdPartyLibs_heap _ _ _ _ _ _ Hsrc). }
    rewrite E1. cbn [fmap option_fmap option_map].
    eexists. split; [reflexivity|].
    split; [apply iter_resolveValue_Name|]. split; [apply iter_resolveValue_Type|].
    split; [intros field Hf; now apply iter_resolveValue_field|].
    intros Hn. rewrite count_occ_not_selected; [reflexivity|].
    intros Hl. apply selectedLocs_elem in Hl as (_ & m0 & E2 & Hm0).
    rewrite E1 in E2. injection E2 as <-. contradiction.
Qed.

Lemma interrogate_frame_witness :
  exists m',
    heap (snd (interrogate sampleInterrogator "Linux" "Development" ["zlib"] ∅
                 (snd (_getThirdPartyLibs sampleInterrogator "Linux" "Development"
                         freshWorld)))) !! 2
    = Some m' /\
    (Name pngModule ∉ libModulesOf ["zlib"] (∅ : gmap string ThirdPartyLibraryDetails) ->
     m' = pngModule).
Proof.
  destruct (interrogate_frame sampleInterrogator "Linux" "Development" ["zlib"] ∅
              (snd (_getThirdPartyLibs sampleInterrogator "Linux" "Development" freshWorld))
              (valueOr emptyDetails
                 (interrogate sampleInterrogator "Linux" "Development" ["zlib"] ∅
                    (snd (_getThirdPartyLibs sampleInterrogator "Linux" "Development"
                            freshWorld))))
              (snd (interrogate sampleInterrogator "Linux" "Development" ["zlib"] ∅
                      (snd (_getThirdPartyLibs sampleInterrogator "Linux" "Development"
                              freshWorld))))
              2 pngModule)
    as (m' & Hm & _ & _ & _ & Hsame).
  - vm_compute. reflexivity.
  - vm_compute. reflexivity.
  - exists m'. split; [exact Hm | exact Hsame].
Defined.

(** When every requested name without an override is the name of a module,
    [interrogate] returns and writes nothing to the error stream. *)
Theorem interrogate_no_warning self p c libraries
    (ovs : gmap string ThirdPartyLibraryDetails) w locs w1 :
  _getThirdPartyLibs self p c w = (Ok locs, w1) ->
  Forall (allocated (heap w1)) locs ->
  libModulesOf libraries ovs ⊆ map Name (heapModules (heap w1) locs) ->
  exists r w',
    interrogate self p c libraries ovs w = (Ok r, w') /\
    diagnostics (trace w') = diagnostics (trace w).
Proof.
  intros Hsrc Hall Hsub.
  destruct (decide (libModulesOf libraries ovs = [])) as [E0|Hne].
  - rewrite (interrogate_no_modules _ _ _ _ _ _ E0). eexists _, _. split; reflexivity.
  - rewrite (interrogate_run _ _ _ _ _ _ _ _ Hne Hsrc Hall). unfold interrogateFrom.
    eexists _, _. split; [reflexivity|]. cbn [trace set_heap].
    unfold warned. rewrite unsupportedOf_all.
    assert (Hnone : filter (fun n => n ∉ map Name (heapModules (heap w1) locs))
                      (libModulesOf libraries ovs) = []).
    { destruct (filter _ _) as [|n ns] eqn:Ef; [reflexivity|]. exfalso.
      assert (Hn : n ∈ filter (fun n => n ∉ map Name (heapModules (heap w1) locs))
                         (libModulesOf libraries ovs)) by (rewrite Ef; left).
      apply list_elem_of_filter in Hn as [Hnot Hin]. apply Hnot. now apply Hsub. }
    rewrite Hnone. cbn [map length Nat.ltb Nat.leb].
    exact (getThirdPartyLibs_diagnostics _ _ _ _ _ _ Hsrc).
Qed.

Lemma interrogate_no_warning_witness :
  exists r w',
    interrogate sampleInterrogator "Linux" "Development" ["libPNG"; "zlib"] ∅ freshWorld
    = (Ok r, w') /\
    diagnostics (trace w') = diagnostics (trace freshWorld).
Proof.
  apply (interrogate_no_warning sampleInterrogator "Linux" "Development" ["libPNG"; "zlib"] ∅
           freshWorld [1; 2]
           (snd (_getThirdPartyLibs sampleInterrogator "Linux" "Development" freshWorld))).
  - vm_compute. reflexivity.
  - vm_compute. repeat constructor; eexists; reflexivity.
  - intros n Hn. vm_compute in Hn. vm_compute.
    apply list_elem_of_In in Hn. apply list_elem_of_In. cbn in *. tauto.
Defined.

Lemma selectedLocs_ext (R1 R2 : list string) h locs :
  (forall n, n ∈ R1 <-> n ∈ R2) -> selectedLocs R1 h locs = selectedLocs R2 h locs.
Proof.
  intros Hext. unfold selectedLocs, selectModules. f_equal.
  apply filter_ext_elem. intros lm _. apply Hext.
Qed.

(** Without overrides, the result of [interrogate] depends only on which
    names are requested, not on their order or on how often each is
    listed. *)
Theorem interrogate_order_irrelevant self p c (R1 R2 : list string) w locs w1 :
  _getThirdPartyLibs self p c w = (Ok locs, w1) ->
  Forall (allocated (heap w1)) locs ->
  (forall n, n ∈ R1 <-> n ∈ R2) ->
  exists r w1' w2',
    interrogate self p c R1 ∅ w = (Ok r, w1') /\
    interrogate self p c R2 ∅ w = (Ok r, w2') /\
    heap w1' = heap w2'.
Proof.
  intros Hsrc Hall Hext.
  destruct R1 as [|n1 R1'], R2 as [|n2 R2'].
  - eexists _, _, _. repeat split.
  - exfalso. assert (H : n2 ∈ []) by (apply Hext; left). inversion H.
  - exfalso. assert (H : n1 ∈ []) by (apply Hext; left). inversion H.
  - set (R1 := n1 :: R1') in *. set (R2 := n2 :: R2') in *.
    assert (Hne1 : libModulesOf R1 (∅ : gmap string ThirdPartyLibraryDetails) <> [])
      by (rewrite libModulesOf_empty; discriminate).
    assert (Hne2 : libModulesOf R2 (∅ : gmap string ThirdPartyLibraryDetails) <> [])
      by (rewrite libModulesOf_empty; discriminate).
    rewrite (interrogate_run _ _ _ _ _ _ _ _ Hne1 Hsrc Hall).
    rewrite (interrogate_run _ _ _ _ _ _ _ _ Hne2 Hsrc Hall).
    unfold interrogateFrom. rewrite !overridesToApply_empty, !libModulesOf_empty, !heap_warned.
    rewrite (selectedLocs_ext R1 R2 _ _ Hext).
    eexists _, _, _. split; [reflexivity|]. split; [reflexivity|].
    cbn [heap set_heap]. reflexivity.
Qed.

Lemma interrogate_order_irrelevant_witness :
  exists r w1' w2',
    interrogate sampleInterrogator "Linux" "Development" ["zlib"; "libPNG"] ∅ freshWorld
    = (Ok r, w1') /\
    interrogate sampleInterrogator "Linux" "Development" ["libPNG"; "zlib"; "zlib"] ∅
      freshWorld
    = (Ok r, w2') /\
    heap w1' = heap w2'.
Proof.
  apply (interrogate_order_irrelevant sampleInterrogator "Linux" "Development"
           ["zlib"; "libPNG"] ["libPNG"; "zlib"; "zlib"] freshWorld [1; 2]
           (snd (_getThirdPartyLibs sampleInterrogator "Linux" "Development" freshWorld))).
  - vm_compute. reflexivity.
  - vm_compute. repeat constructor; eexists; reflexivity.
  - intros n. rewrite !list_elem_of_In. cbn. tauto.
Defined.

(** ** Shapes of the paths of a result *)

Lemma absolutePaths_shape root paths :
  startsWithSlash root = true -> Forall absoluteOrBare (_absolutePaths root paths).
Proof.
  intros Hroot. rewrite absolutePaths_pointwise. apply Forall_fmap, Forall_forall.
  intros p _. now apply absolutize_shape.
Qed.

Lemma flattened_shape self modules field :
  startsWithSlash (engineRoot self) = true ->
  Forall absoluteOrBare (flattened self modules field).
Proof. intros Hroot. rewrite flattened_spec. now apply absolutePaths_shape. Qed.

Lemma head_upto_last_sep_bare p : hasSlash p = false -> PosixPath.head_upto_last_sep p = "".
Proof.
  induction p as [|a p IH]; [reflexivity|].
  cbn [hasSlash PosixPath.head_upto_last_sep]. intros H.
  apply orb_false_iff in H as [Ha Hp].
  unfold PosixPath.sep. now rewrite contains_slash, Hp, Ha.
Qed.

Lemma rstrip_sep_empty s : PosixPath.rstrip_sep s = "" -> PosixPath.all_sep s = true.
Proof.
  induction s as [|a s IH]; [reflexivity|].
  cbn [PosixPath.rstrip_sep PosixPath.all_sep].
  destruct (Ascii.eqb a "/") eqn:Ha; cbn [andb].
  - destruct (String.eqb_spec (PosixPath.rstrip_sep s) "") as [E|E]; [now intros _; apply IH|].
    discriminate.
  - discriminate.
Qed.

Lemma dirname_shape p : absoluteOrBare p -> absoluteOrBare (PosixPath.dirname p).
Proof.
  intros [Habs|Hbare].
  - left. unfold PosixPath.dirname.
    destruct p as [|a p]; [discriminate|]. cbn in Habs.
    assert (Hhead : exists t, PosixPath.head_upto_last_sep (String a p) = String "/" t).
    { cbn [PosixPath.head_upto_last_sep]. apply Ascii.eqb_eq in Habs. subst a.
      destruct (PyStr.contains PosixPath.sep p); eexists; reflexivity. }
    destruct Hhead as [t ->].
    change (String.eqb (String "/" t) "") with false. cbn [negb andb].
    destruct (PosixPath.all_sep (String "/" t)) eqn:Hall; cbn [negb]; [reflexivity|].
    cbn [PosixPath.rstrip_sep]. rewrite Ascii.eqb_refl. cbn [andb].
    destruct (String.eqb_spec (PosixPath.rstrip_sep t) "") as [E|E]; [|reflexivity].
    apply rstrip_sep_empty in E. cbn [PosixPath.all_sep] in Hall.
    rewrite Ascii.eqb_refl, E in Hall. discriminate.
  - right. unfold PosixPath.dirname. rewrite (head_upto_last_sep_bare _ Hbare). reflexivity.
Qed.

(** With an absolute engine root and no overrides, every prefix directory,
    include directory, link directory and library of a result of
    [interrogate] is an absolute path or a bare name without separator. *)
Theorem interrogate_paths_absolute_or_bare self p c libraries w r w' :
  PosixPath.isabs (engineRoot self) = true ->
  interrogate self p c libraries ∅ w = (Ok r, w') ->
  Forall absoluteOrBare (prefixDirs r) /\
  Forall absoluteOrBare (includeDirs r) /\
  Forall absoluteOrBare (linkDirs r) /\
  Forall absoluteOrBare (libs r).
Proof.
  unfold PosixPath.isabs, PyStr.startswith, PosixPath.sep. rewrite prefix_slash.
  intros Hroot Hrun.
  destruct (decide (libModulesOf libraries (∅ : gmap string ThirdPartyLibraryDetails) = []))
    as [E0|Hne].
  - rewrite (interrogate_no_modules _ _ _ _ _ _ E0), overridesToApply_empty in Hrun.
    injection Hrun as <- _. repeat split; constructor.
  - apply (interrogate_Ok_inv _ _ _ _ _ _ _ _ Hne) in Hrun
      as (locs & w1 & _ & _ & Hfrom).
    unfold interrogateFrom in Hfrom. rewrite overridesToApply_empty in Hfrom.
    injection Hfrom as <- _. cbn [fold_left]. unfold moduleDetails.
    cbn [prefixDirs includeDirs linkDirs libs].
    pose proof (fun field => flattened_shape self
      (heapModules
         (resolveHeap self
            (selectedLocs (libModulesOf libraries ∅) (heap w1) locs)
            (heap (warned (libModulesOf libraries ∅)
                     (map Name (heapModules (heap w1)
                        (selectedLocs (libModulesOf libraries ∅) (heap w1) locs))) w1)))
         (selectedLocs (libModulesOf libraries ∅) (heap w1) locs)) field Hroot) as Hf.
    split; [|split; [|split]]; try (rewrite ?Forall_app; repeat split; apply Hf).
    apply Forall_forall. intros x Hx. apply (proj1 (list_of_set_elem _ _)) in Hx.
    rewrite !elem_of_app in Hx.
    assert (Hin : forall field y, y ∈ flattened self _ field -> absoluteOrBare y)
      by (intros field y; apply (proj1 (Forall_forall _ _) (Hf field))).
    destruct Hx as [Hx|[[Hx|[Hx|Hx]]|[Hx|Hx]]]; try (eapply Hin; exact Hx).
    apply list_elem_of_fmap in Hx as (y & -> & Hy). apply dirname_shape.
    rewrite !elem_of_app in Hy.
    destruct Hy as [[Hy|[Hy|Hy]]|Hy]; eapply Hin; exact Hy.
Qed.

Lemma interrogate_paths_absolute_or_bare_witness :
  Forall absoluteOrBare
    (prefixDirs (valueOr emptyDetails
       (interrogate sampleInterrogator "Linux" "Development" ["zlib"; "libPNG"] ∅
          freshWorld))) /\
  Forall absoluteOrBare
    (libs (valueOr emptyDetails
       (interrogate sampleInterrogator "Linux" "Development" ["zlib"; "libPNG"] ∅
          freshWorld))).
Proof.
  destruct (interrogate_paths_absolute_or_bare sampleInterrogator "Linux" "Development"
              ["zlib"; "libPNG"] freshWorld
              (valueOr emptyDetails
                 (interrogate sampleInterrogator "Linux" "Development" ["zlib"; "libPNG"] ∅
                    freshWorld))
              (snd (interrogate sampleInterrogator "Linux" "Development" ["zlib"; "libPNG"] ∅
                      freshWorld)))
    as (Hp & _ & _ & Hl).
  - reflexivity.
  - vm_compute. reflexivity.
  - split; [exact Hp | exact Hl].
Defined.
